(** * typepilot: the web research assistant of [type_pilot.py]

    A shallow embedding of [WebResearchAssistant] (search, page fetch, content
    extraction, aggregation, summarisation, orchestration) and the properties
    its specification states about it.

    Conventions of the embedding.
    - Python values that come out of JSON are [pyval]; a [dict] is a [gmap]
      from string keys.
    - A call either returns a value or raises: [result].
    - The network and the HTML parser are the environment: a [world] gives the
      outcome of every request the program issues.
    - An [async def] is a [coro]: a finite sequence of visible events (requests
      issued, console lines) cut by suspension points, ending in a [result].
    - A character of a [string] stands for a code point below 256. *)

From Stdlib Require Import ZArith Strings.String Strings.Ascii List Bool Lia.
From stdpp Require Import base option list gmap strings pretty.

Set Warnings "-register-all".

Local Open Scope string_scope.
Local Open Scope list_scope.
Local Open Scope Z_scope.

(** ** Python values and exceptions *)

Module Py.

(** Values produced by [json()] and the literals of the program. *)
Inductive pyval : Type :=
| PyNone
| PyBool (b : bool)
| PyInt (z : Z)
| PyFloat (bits : Z)            (* an IEEE-754 double, by its bit pattern *)
| PyStr (s : string)
| PyList (l : list pyval)
| PyDict (d : gmap string pyval).

(** The classes of the exceptions the modelled operations raise. Each one is a
    subclass of [Exception]; [KeyboardInterrupt] and task cancellation, which
    are not, are raised by no operation of the program. *)
Inductive exn_class : Type :=
| AttributeError | TypeError | KeyError | IndexError
| JSONDecodeError | ContentTypeError | UnicodeDecodeError
| ClientError | TimeoutError | RequestException | ParserError.

Record exn : Type := Exn { exn_cls : exn_class; exn_msg : string }.

(** [isinstance(e, Exception)], the test of [except Exception]. *)
Definition is_Exception (e : exn) : bool :=
  match exn_cls e with
  | AttributeError | TypeError | KeyError | IndexError
  | JSONDecodeError | ContentTypeError | UnicodeDecodeError
  | ClientError | TimeoutError | RequestException | ParserError => true
  end.

Inductive result (A : Type) : Type :=
| Ok (a : A)
| Raise (e : exn).
Arguments Ok {A} a.
Arguments Raise {A} e.

(** [type(v).__name__] *)
Definition type_name (v : pyval) : string :=
  match v with
  | PyNone => "NoneType"
  | PyBool _ => "bool"
  | PyInt _ => "int"
  | PyFloat _ => "float"
  | PyStr _ => "str"
  | PyList _ => "list"
  | PyDict _ => "dict"
  end.

(** [v.get(key, default)]: only a dict has the method. *)
Definition get (v : pyval) (key : string) (dflt : pyval) : result pyval :=
  match v with
  | PyDict d => Ok (default dflt (d !! key))
  | _ => Raise (Exn AttributeError
                  ("'" +:+ type_name v +:+ "' object has no attribute 'get'"))
  end.

(** The one-character strings of a string, as iteration yields them. *)
Fixpoint chars (s : string) : list pyval :=
  match s with
  | EmptyString => []
  | String c s' => PyStr (String c EmptyString) :: chars s'
  end.

(** [iter(v)] run to exhaustion. A dict yields its keys; their order is not
    kept by [gmap], and the program never observes it. *)
Definition iterate (v : pyval) : result (list pyval) :=
  match v with
  | PyList l => Ok l
  | PyStr s => Ok (chars s)
  | PyDict d => Ok (PyStr <$> (map_to_list d).*1)
  | _ => Raise (Exn TypeError ("'" +:+ type_name v +:+ "' object is not iterable"))
  end.

(** Subscript keys used by the program: a string literal or an integer. *)
Inductive key : Type :=
| KStr (s : string)
| KInt (i : Z).

(** [l[i]] for a sequence of [n] items: negative indices count from the end. *)
Definition seq_index (n : nat) (i : Z) : option nat :=
  if (0 <=? i) && (i <? Z.of_nat n) then Some (Z.to_nat i)
  else if (i <? 0) && (- Z.of_nat n <=? i) then Some (Z.to_nat (Z.of_nat n + i))
  else None.

(** [v[k]] *)
Definition subscript (v : pyval) (k : key) : result pyval :=
  match v, k with
  | PyDict d, KStr s =>
      match d !! s with
      | Some x => Ok x
      | None => Raise (Exn KeyError ("'" +:+ s +:+ "'"))
      end
  | PyDict d, KInt i => Raise (Exn KeyError (pretty i))
  | PyList l, KInt i =>
      match seq_index (length l) i with
      | Some n =>
          match l !! n with
          | Some x => Ok x
          | None => Raise (Exn IndexError "list index out of range")
          end
      | None => Raise (Exn IndexError "list index out of range")
      end
  | PyList _, KStr _ =>
      Raise (Exn TypeError "list indices must be integers or slices, not str")
  | PyStr s, KInt i =>
      match seq_index (length (chars s)) i with
      | Some n =>
          match chars s !! n with
          | Some x => Ok x
          | None => Raise (Exn IndexError "string index out of range")
          end
      | None => Raise (Exn IndexError "string index out of range")
      end
  | PyStr _, KStr _ =>
      Raise (Exn TypeError "string indices must be integers, not 'str'")
  | _, _ =>
      Raise (Exn TypeError ("'" +:+ type_name v +:+ "' object is not subscriptable"))
  end.

End Py.

Import Py.

(** ** Text: the [str] methods the program calls *)

Module Text.

(** [c.isspace()] on code points below 256. *)
Definition isspace (c : ascii) : bool :=
  let n := N_of_ascii c in
  (((9 <=? n) && (n <=? 13)) || ((28 <=? n) && (n <=? 32))
   || (n =? 133) || (n =? 160))%N.

Fixpoint lstrip (s : string) : string :=
  match s with
  | EmptyString => EmptyString
  | String c s' => if isspace c then lstrip s' else s
  end.

Fixpoint rstrip (s : string) : string :=
  match s with
  | EmptyString => EmptyString
  | String c s' =>
      match rstrip s' with
      | EmptyString => if isspace c then EmptyString else String c EmptyString
      | r => String c r
      end
  end.

(** [s.strip()] *)
Definition strip (s : string) : string := lstrip (rstrip s).

(** A finished word is kept only when it is not empty. *)
Definition push_word (w : string) (ws : list string) : list string :=
  match w with
  | EmptyString => ws
  | _ => w :: ws
  end.

(** The word that starts at the head of [s] (empty when [s] starts with
    whitespace) and the words after it. *)
Fixpoint split_from (s : string) : string * list string :=
  match s with
  | EmptyString => (EmptyString, [])
  | String c s' =>
      let '(w, ws) := split_from s' in
      if isspace c then (EmptyString, push_word w ws) else (String c w, ws)
  end.

(** [s.split()]: the maximal runs of non-whitespace characters. *)
Definition split (s : string) : list string :=
  let '(w, ws) := split_from s in push_word w ws.

(** [sep.join(l)] *)
Fixpoint join (sep : string) (l : list string) : string :=
  match l with
  | [] => EmptyString
  | [x] => x
  | x :: xs => x +:+ sep +:+ join sep xs
  end.

(** [bool(s)] *)
Definition nonempty (s : string) : bool :=
  match s with
  | EmptyString => false
  | _ => true
  end.

(** [needle in s] *)
Fixpoint contains (needle s : string) : bool :=
  String.prefix needle s ||
  match s with
  | EmptyString => false
  | String _ s' => contains needle s'
  end.

(** [s.lower()] on ASCII letters. *)
Definition lower_char (c : ascii) : ascii :=
  let n := N_of_ascii c in
  if ((65 <=? n) && (n <=? 90))%N then ascii_of_N (n + 32) else c.

Fixpoint lower (s : string) : string :=
  match s with
  | EmptyString => EmptyString
  | String c s' => String (lower_char c) (lower s')
  end.

End Text.

(** ** The document tree of BeautifulSoup *)

Module Soup.

(** The classes of the strings of a document. *)
Inductive string_class : Type :=
| NavigableString | CData | Comment | Declaration | Doctype
| ProcessingInstruction | Script | Stylesheet | TemplateString.

(** What the parser reads off the page: nested markup. *)
Inductive markup : Type :=
| MString (cls : string_class) (s : string)
| MElement (name : string) (children : list markup).

(** The objects of the tree. A tag object has an identity, by which a
    reference held outside the tree still denotes it after the tree changed. *)
Inductive node : Type :=
| Str (cls : string_class) (s : string)
| Tag (id : nat) (name : string) (contents : list node).

(** Objects are allocated in document order, from identity [n] on. *)
Fixpoint build (n : nat) (m : markup) : node * nat :=
  match m with
  | MString cls s => (Str cls s, n)
  | MElement name ms =>
      let '(cs, n') :=
        (fix build_all (n : nat) (ms : list markup) : list node * nat :=
           match ms with
           | [] => ([], n)
           | m :: ms' =>
               let '(c, n1) := build n m in
               let '(cs, n2) := build_all n1 ms' in
               (c :: cs, n2)
           end) (S n) ms in
      (Tag n name cs, n')
  end.

Fixpoint build_all (n : nat) (ms : list markup) : list node * nat :=
  match ms with
  | [] => ([], n)
  | m :: ms' =>
      let '(c, n1) := build n m in
      let '(cs, n2) := build_all n1 ms' in
      (c :: cs, n2)
  end.

(** The contents of the [BeautifulSoup] object built from parsed markup. *)
Definition soup_of (ms : list markup) : list node := fst (build_all 0 ms).

(** [x] and everything below it, in document order. *)
Fixpoint descendants_of (x : node) : list node :=
  x :: match x with
       | Str _ _ => []
       | Tag _ _ cs => List.flat_map descendants_of cs
       end.

(** [soup.descendants] *)
Definition descendants (soup : list node) : list node :=
  List.flat_map descendants_of soup.

Definition tag_named (names : list string) (x : node) : option nat :=
  match x with
  | Tag id name _ => if bool_decide (name ∈ names) then Some id else None
  | Str _ _ => None
  end.

(** [soup(names)], that is [soup.find_all(names)]: references to the tags,
    at any depth, whose name is listed. *)
Definition find_all (names : list string) (soup : list node) : list nat :=
  omap (tag_named names) (descendants soup).

Fixpoint without (i : nat) (x : node) : option node :=
  match x with
  | Str _ _ => Some x
  | Tag id name cs =>
      if Nat.eqb id i then None else Some (Tag id name (omap (without i) cs))
  end.

(** [tag.decompose()]: the tag leaves the tree with all it contains. On a tag
    that already left, nothing changes. *)
Definition decompose (soup : list node) (tag : nat) : list node :=
  omap (without tag) soup.

(** The strings [get_text] looks at by default. *)
Definition interesting (cls : string_class) : bool :=
  match cls with
  | NavigableString | CData => true
  | _ => false
  end.

Definition string_of (strip : bool) (x : node) : option string :=
  match x with
  | Str cls s =>
      if interesting cls then
        if strip then
          let s' := Text.strip s in
          if Text.nonempty s' then Some s' else None
        else Some s
      else None
  | Tag _ _ _ => None
  end.

(** [soup._all_strings(strip)] *)
Definition all_strings (strip : bool) (soup : list node) : list string :=
  omap (string_of strip) (descendants soup).

(** [soup.get_text(separator, strip)] *)
Definition get_text (separator : string) (strip : bool) (soup : list node)
  : string :=
  Text.join separator (all_strings strip soup).

End Soup.

(** ** Effects: requests, console lines, coroutines *)

(** The keyword arguments of a request; [PyNone] where one is not passed. *)
Record request : Type := Request {
  req_url : pyval;
  req_headers : pyval;
  req_params : pyval;
  req_json : pyval;
  req_timeout : pyval
}.

(** What the program reads of a response: the status, and what [json()] and
    [text()] give when called. *)
Record response : Type := Response {
  status : Z;
  json : result pyval;
  text : result string
}.

(** The pieces of an f-string: literal text and formatted values. *)
Inductive fragment : Type :=
| Lit (s : string)
| Fmt (v : pyval)
| FmtExn (e : exn).

Inductive event : Type :=
| Get (r : request)               (* [session.get] is called *)
| Post (r : request)              (* [requests.post] is called *)
| Print (line : list fragment).   (* a line on the console *)

(** A coroutine that was given the outcome of each of its requests. *)
Inductive coro (A : Type) : Type :=
| Return (r : result A)
| Emit (e : event) (k : coro A)
| Yield (k : coro A).             (* control goes back to the event loop *)
Arguments Return {A} r.
Arguments Emit {A} e k.
Arguments Yield {A} k.

Fixpoint coro_bind {A B} (f : A → coro B) (c : coro A) : coro B :=
  match c with
  | Return (Ok a) => f a
  | Return (Raise e) => Return (Raise e)
  | Emit e k => Emit e (coro_bind f k)
  | Yield k => Yield (coro_bind f k)
  end.

#[export] Instance coro_ret : MRet coro := λ A a, Return (Ok a).
#[export] Instance coro_mbind : MBind coro := λ A B f c, coro_bind f c.

(** The value or exception of an expression that does no I/O. *)
Definition lift {A} (r : result A) : coro A := Return r.

(** [await x] where [x] completes with [r]. *)
Definition await {A} (r : result A) : coro A := Yield (Return r).

(** [print(f"...")] *)
Definition print (line : list fragment) : coro unit :=
  Emit (Print line) (Return (Ok tt)).

(** [try: c except Exception as e: h e] *)
Fixpoint try_except {A} (c : coro A) (h : exn → coro A) : coro A :=
  match c with
  | Return (Ok a) => Return (Ok a)
  | Return (Raise e) => if is_Exception e then h e else Return (Raise e)
  | Emit e k => Emit e (try_except k h)
  | Yield k => Yield (try_except k h)
  end.

(** The list comprehension [[f x for x in l]]. *)
Fixpoint comprehension {A B} (f : A → coro B) (l : list A) : coro (list B) :=
  match l with
  | [] => mret []
  | x :: l' => y ← f x; ys ← comprehension f l'; mret (y :: ys)
  end.

(** What a coroutine leaves behind when it runs alone to its end. *)
Fixpoint events {A} (c : coro A) : list event :=
  match c with
  | Return _ => []
  | Emit e k => e :: events k
  | Yield k => events k
  end.

Fixpoint value {A} (c : coro A) : result A :=
  match c with
  | Return r => r
  | Emit _ k => value k
  | Yield k => value k
  end.

(** *** The event loop under [asyncio.gather] *)

(** One turn of a task: it runs up to its next suspension point. *)
Fixpoint turn {A} (c : coro A) : list event * coro A :=
  match c with
  | Return r => ([], Return r)
  | Emit e k => let '(es, c') := turn k in (e :: es, c')
  | Yield k => ([], k)
  end.

Definition finished {A} (c : coro A) : option (result A) :=
  match c with
  | Return r => Some r
  | _ => None
  end.

(** The tasks still to finish when the loop stops following [schedule] take
    their turns in order of position. *)
Fixpoint drain {A} (pool : list (coro A)) : list event * result (list A) :=
  match pool with
  | [] => ([], Ok [])
  | c :: pool' =>
      match value c with
      | Raise e => (events c, Raise e)
      | Ok a =>
          let '(es, r) := drain pool' in
          (events c ++ es,
           match r with Ok l => Ok (a :: l) | Raise e => Raise e end)
      end
  end.

(** [schedule] names, turn after turn, the task the loop resumes; a name that
    is out of range or of a finished task is skipped. The first exception of a
    task is the exception of [gather]. *)
Fixpoint loop {A} (schedule : list nat) (pool : list (coro A))
  : list event * result (list A) :=
  match schedule with
  | [] => drain pool
  | i :: schedule' =>
      match pool !! i with
      | None => loop schedule' pool
      | Some c =>
          let '(es, c') := turn c in
          match finished c' with
          | Some (Raise e) => (es, Raise e)
          | _ =>
              let '(es', r) := loop schedule' (<[i := c']> pool) in
              (es ++ es', r)
          end
      end
  end.

Fixpoint emit_all {A} (es : list event) (c : coro A) : coro A :=
  match es with
  | [] => c
  | e :: es' => Emit e (emit_all es' c)
  end.

(** [await asyncio.gather] of the tasks: the results by position, whatever the
    order in which the tasks finish. *)
Definition gather {A} (schedule : list nat) (tasks : list (coro A))
  : coro (list A) :=
  let '(es, r) := loop schedule tasks in
  Yield (emit_all es (Return r)).

(** ** The environment *)

Record world : Type := World {
  (** the process environment read by [os.getenv] *)
  environ : gmap string string;
  (** the outcome of a [get] on the session opened by [search_bing] *)
  search_session : request → result response;
  (** the outcome of a [get] on the session opened by the page fetch that was
      created at a given position *)
  page_session : nat → request → result response;
  (** the outcome of [requests.post] *)
  requests_post : request → result response;
  (** the markup [html.parser] reads off a page *)
  html_parser : string → result (list Soup.markup);
  (** the order in which the event loop resumes the page fetches *)
  schedule : list nat
}.

#[export] Instance result_ret : MRet result := λ A a, Ok a.
#[export] Instance result_mbind : MBind result := λ A B f r,
  match r with
  | Ok a => f a
  | Raise e => Raise e
  end.

(** [await session.get(...)]: the request goes out, the coroutine is suspended,
    and the outcome is the response or an exception. Entering and leaving the
    [async with] blocks around it has no effect the program observes: an
    exception raised inside them passes through. *)
Definition session_get (session : request → result response) (r : request)
  : coro response :=
  Emit (Get r) (Yield (Return (session r))).

(** [requests.post(...)] blocks: no suspension point. *)
Definition post (w : world) (r : request) : coro response :=
  Emit (Post r) (Return (requests_post w r)).

(** [BeautifulSoup(html, 'html.parser')] *)
Definition BeautifulSoup (w : world) (html : string) : result (list Soup.node) :=
  ms ← html_parser w html; mret (Soup.soup_of ms).

(** ** class WebResearchAssistant *)

Record WebResearchAssistant : Type := Assistant {
  bing_api_key : pyval;
  gemini_api_key : pyval
}.

(** [os.getenv(name)] *)
Definition getenv (w : world) (name : string) : pyval :=
  match environ w !! name with
  | Some v => PyStr v
  | None => PyNone
  end.

(** [__init__] *)
Definition init (w : world) : WebResearchAssistant :=
  {| bing_api_key := getenv w "BING_API_KEY";
     gemini_api_key := getenv w "GEMINI_API_KEY" |}.

Definition search_bing (self : WebResearchAssistant) (w : world)
  (query : string) : coro (list pyval) :=
  let endpoint := "https://api.bing.microsoft.com/v7.0/search" in
  let headers :=
    PyDict {[ "Ocp-Apim-Subscription-Key" := bing_api_key self ]} in
  let params := PyDict (<[ "q" := PyStr query ]> {[ "count" := PyInt 10 ]}) in
  response ← session_get (search_session w)
               (Request (PyStr endpoint) headers params PyNone PyNone);
  if status response =? 200 then
    data ← await (json response);
    webPages ← lift (get data "webPages" (PyDict ∅));
    entries ← lift (get webPages "value" (PyList []));
    results ← lift (iterate entries);
    comprehension
      (λ result,
         url ← lift (get result "url" (PyStr ""));
         title ← lift (get result "name" (PyStr ""));
         mret (PyDict (<[ "url" := url ]> {[ "title" := title ]})))
      results
  else
    print [Lit "Bing Search Error: "; Fmt (PyInt (status response))];;
    mret [].

(** The tags the page fetch removes. *)
Definition removed_tags : list string :=
  ["script"; "style"; "nav"; "header"; "footer"].

(** Lines 60 to 67 of the page fetch: the text of a parsed page. *)
Definition extract_text (soup : list Soup.node) : string :=
  let soup := fold_left Soup.decompose (Soup.find_all removed_tags soup) soup in
  let text := Soup.get_text " " true soup in
  Text.join " " (Text.split text).

(** The Content Extractor, lines 57 to 67: parse, remove, read, clean. *)
Definition extract (w : world) (html : string) : result string :=
  soup ← BeautifulSoup w html; mret (extract_text soup).

(** [position] is the position at which the call was made in the list of
    fetches of one query; it selects the session the call opens. *)
Definition fetch_webpage_content (w : world) (position : nat) (url : pyval)
  : coro string :=
  try_except
    (response ← session_get (page_session w position)
                  (Request url PyNone PyNone PyNone (PyInt 10));
     if status response =? 200 then
       html ← await (text response);
       text ← lift (extract w html);
       print [Lit "text is"];;
       print [Fmt (PyStr text)];;
       mret text
     else
       print [Lit "Failed to fetch "; Fmt url; Lit ": ";
              Fmt (PyInt (status response))];;
       mret "")
    (λ e,
       print [Lit "Error fetching "; Fmt url; Lit ": "; FmtExn e];;
       mret "").

(** [[self.fetch_webpage_content(result['url']) for result in search_results]],
    from position [i] on: the coroutines are created, not yet started. *)
Fixpoint fetch_tasks (w : world) (i : nat) (search_results : list pyval)
  : result (list (coro string)) :=
  match search_results with
  | [] => mret []
  | result :: rest =>
      url ← subscript result (KStr "url");
      tasks ← fetch_tasks w (S i) rest;
      mret (fetch_webpage_content w i url :: tasks)
  end.

Definition parallel_webpage_scraping (w : world) (search_results : list pyval)
  : coro string :=
  tasks ← lift (fetch_tasks w 0 search_results);
  contents ← gather (schedule w) tasks;
  mret (Text.join " " (filter (λ s, Text.nonempty s = true) contents)).

Definition newline : string := String (ascii_of_nat 10) EmptyString.

Definition indent : string := "                    ".

(** The text of the f-string before [{text}]. *)
Definition instruction : string :=
  "Summarize this text in exactly 300 words. " +:+ newline +:+
  indent +:+ "Extract and highlight key numbers, statistics, and important details." +:+ newline +:+
  indent +:+ "Ensure the summary is concise, clear, and captures the most significant information." +:+ newline +:+
  indent +:+ newline +:+
  indent +:+ "Text to summarize:" +:+ newline +:+
  indent.

Definition gemini_endpoint : string :=
  "https://generativelanguage.googleapis.com/v1beta/models/gemini-1.5-flash-latest:generateContent".

Definition payload (text : string) : pyval :=
  PyDict {[ "contents" :=
    PyList [PyDict {[ "parts" :=
      PyList [PyDict {[ "text" := PyStr (instruction +:+ text) ]}] ]}] ]}.

Definition summarize_with_gemini (self : WebResearchAssistant) (w : world)
  (text : string) : coro pyval :=
  let headers :=
    PyDict (<[ "Content-Type" := PyStr "application/json" ]>
              {[ "x-goog-api-key" := gemini_api_key self ]}) in
  response ← post w (Request (PyStr gemini_endpoint) headers PyNone
                       (payload text) PyNone);
  if status response =? 200 then
    result ← lift (json response);
    candidates ← lift (subscript result (KStr "candidates"));
    candidate ← lift (subscript candidates (KInt 0));
    content ← lift (subscript candidate (KStr "content"));
    parts ← lift (subscript content (KStr "parts"));
    part ← lift (subscript parts (KInt 0));
    lift (subscript part (KStr "text"))
  else
    print [Lit "Gemini API Error: "; Fmt (PyInt (status response))];;
    mret (PyStr "").

(** The methods [research_and_summarize] calls through [self]; a test replaces
    any of them by a stub. *)
Record methods : Type := Methods {
  call_search_bing : string → coro (list pyval);
  call_parallel_webpage_scraping : list pyval → coro string;
  call_summarize_with_gemini : string → coro pyval
}.

Definition research_and_summarize (self : methods) (query : string)
  : coro pyval :=
  search_results ← call_search_bing self query;
  scraped_content ← call_parallel_webpage_scraping self search_results;
  summary ← call_summarize_with_gemini self scraped_content;
  mret summary.

(** The methods of the class as written. *)
Definition bound (self : WebResearchAssistant) (w : world) : methods :=
  {| call_search_bing := search_bing self w;
     call_parallel_webpage_scraping := parallel_webpage_scraping w;
     call_summarize_with_gemini := summarize_with_gemini self w |}.

(** [asyncio.run(assistant.research_and_summarize(query))] with a fresh
    assistant, as the form handler does. *)
Definition run_query (w : world) (query : string) : list event * result pyval :=
  let c := research_and_summarize (bound (init w) w) query in
  (events c, value c).

(** ** What the specification names *)

(** A SearchResult: the dict literal [search_bing] builds. *)
Definition SearchResult (url title : pyval) : pyval :=
  PyDict (<[ "url" := url ]> {[ "title" := title ]}).

(** The request [search_bing] issues for a query. *)
Definition bing_request (self : WebResearchAssistant) (query : string)
  : request :=
  Request (PyStr "https://api.bing.microsoft.com/v7.0/search")
    (PyDict {[ "Ocp-Apim-Subscription-Key" := bing_api_key self ]})
    (PyDict (<[ "q" := PyStr query ]> {[ "count" := PyInt 10 ]}))
    PyNone PyNone.

(** The request a page fetch issues for a URL. *)
Definition page_request (url : pyval) : request :=
  Request url PyNone PyNone PyNone (PyInt 10).

(** The request [summarize_with_gemini] issues for a corpus. *)
Definition gemini_request (self : WebResearchAssistant) (text : string)
  : request :=
  Request (PyStr gemini_endpoint)
    (PyDict (<[ "Content-Type" := PyStr "application/json" ]>
               {[ "x-goog-api-key" := gemini_api_key self ]}))
    PyNone (payload text) PyNone.

(** The kinds of failure of section 7. *)
Inductive failure : Type :=
| TransportFailure | NonSuccessStatus | MalformedResponse.

(** The entries [search_bing] iterates over in a response. *)
Definition listed (resp : response) : result (list pyval) :=
  data ← json resp;
  webPages ← get data "webPages" (PyDict ∅);
  entries ← get webPages "value" (PyList []);
  iterate entries.

(** The SearchResult of a well-formed entry. *)
Definition result_of_entry (entry : pyval) : result pyval :=
  url ← get entry "url" (PyStr "");
  title ← get entry "name" (PyStr "");
  mret (SearchResult url title).

Fixpoint mapM {A B} (f : A → result B) (l : list A) : result (list B) :=
  match l with
  | [] => mret []
  | x :: l' => y ← f x; ys ← mapM f l'; mret (y :: ys)
  end.

(** The failure, if any, the Search Client meets in the outcome of its request. *)
Definition search_failure (o : result response) : option failure :=
  match o with
  | Raise _ => Some TransportFailure
  | Ok resp =>
      if status resp =? 200 then
        match listed resp ≫= mapM result_of_entry with
        | Ok _ => None
        | Raise _ => Some MalformedResponse
        end
      else Some NonSuccessStatus
  end.

(** The summary in a response of the summarisation service. *)
Definition first_candidate_text (resp : response) : result pyval :=
  result ← json resp;
  candidates ← subscript result (KStr "candidates");
  candidate ← subscript candidates (KInt 0);
  content ← subscript candidate (KStr "content");
  parts ← subscript content (KStr "parts");
  part ← subscript parts (KInt 0);
  subscript part (KStr "text").

(** The failure, if any, the Summarizer meets. *)
Definition summary_failure (o : result response) : option failure :=
  match o with
  | Raise _ => Some TransportFailure
  | Ok resp =>
      if status resp =? 200 then
        match first_candidate_text resp with
        | Ok _ => None
        | Raise _ => Some MalformedResponse
        end
      else Some NonSuccessStatus
  end.

(** The failure, if any, the Page Fetcher meets. *)
Definition fetch_failure (w : world) (o : result response) : option failure :=
  match o with
  | Raise _ => Some TransportFailure
  | Ok resp =>
      if status resp =? 200 then
        match text resp ≫= extract w with
        | Ok _ => None
        | Raise _ => Some MalformedResponse
        end
      else Some NonSuccessStatus
  end.

(** The text of the page fetched at a position: empty on every failure. *)
Definition page_text (w : world) (position : nat) (url : pyval) : string :=
  match page_session w position (page_request url) with
  | Ok resp =>
      if status resp =? 200 then
        match text resp ≫= extract w with
        | Ok t => t
        | Raise _ => ""
        end
      else ""
  | Raise _ => ""
  end.

(** The entries a response lists, none when there is no list to read. *)
Definition entries_in (resp : response) : list pyval :=
  if status resp =? 200 then
    match listed resp with
    | Ok l => l
    | Raise _ => []
    end
  else [].

(** The requests among the events of a trace. *)
Definition is_request (e : event) : bool :=
  match e with
  | Get _ | Post _ => true
  | Print _ => false
  end.

Definition requests (es : list event) : list event :=
  filter (λ e, is_request e = true) es.

(** ** The Content Extractor, as the specification words it *)

(** The strings of a piece of markup that the extractor reads: those of the
    classes [get_text] looks at, outside every tag of a listed name, each one
    stripped, the empty ones left out. *)
Fixpoint visible (names : list string) (m : Soup.markup) : list string :=
  match m with
  | Soup.MString cls s =>
      if Soup.interesting cls then
        let s' := Text.strip s in
        if Text.nonempty s' then [s'] else []
      else []
  | Soup.MElement name ms =>
      if bool_decide (name ∈ names) then []
      else List.flat_map (visible names) ms
  end.

(** Every maximal run of whitespace becomes one space. *)
Fixpoint squeeze (s : string) : string :=
  match s with
  | EmptyString => EmptyString
  | String c s' =>
      if Text.isspace c then
        match s' with
        | EmptyString => " "
        | String c' _ =>
            if Text.isspace c' then squeeze s' else String " " (squeeze s')
        end
      else String c (squeeze s')
  end.

(** Runs of whitespace collapsed to single spaces, then both ends trimmed. *)
Definition collapse (s : string) : string := Text.strip (squeeze s).

(** Every whitespace character is a space that a non-whitespace character
    follows. *)
Fixpoint single_spaced (s : string) : bool :=
  match s with
  | EmptyString => true
  | String c s' =>
      (if Text.isspace c then
         Ascii.eqb c " " &&
         match s' with
         | EmptyString => false
         | String c' _ => negb (Text.isspace c')
         end
       else true) && single_spaced s'
  end.

(** Already-normalized text: single spaces between words and none at the
    ends. *)
Definition normalized (s : string) : bool :=
  single_spaced s &&
  match s with
  | EmptyString => true
  | String c _ => negb (Text.isspace c)
  end.

(** Plain text wrapped in nested tags, outermost first. *)
Fixpoint wrap (tags : list string) (plain_text : string) : Soup.markup :=
  match tags with
  | [] => Soup.MString Soup.NavigableString plain_text
  | tag :: tags' => Soup.MElement tag [wrap tags' plain_text]
  end.

(** *** The tree without the tags of given identities *)

Fixpoint prune (ids : list nat) (x : Soup.node) : option Soup.node :=
  match x with
  | Soup.Str _ _ => Some x
  | Soup.Tag id name cs =>
      if bool_decide (id ∈ ids) then None
      else Some (Soup.Tag id name (omap (prune ids) cs))
  end.

(** The identity and name of a tag object. *)
Definition tag_of (x : Soup.node) : option (nat * string) :=
  match x with
  | Soup.Tag id name _ => Some (id, name)
  | Soup.Str _ _ => None
  end.

(** The tags of a tree, in document order. *)
Definition tags (soup : list Soup.node) : list (nat * string) :=
  omap tag_of (Soup.descendants soup).

(** *** Auxiliary notions for the text lemmas *)

(** The words of [s] joined, the word at the head of [s] included even when
    it is empty. *)
Definition joined_from (s : string) : string :=
  let '(w, ws) := Text.split_from s in Text.join " " (w :: ws).

(** [s] starts with a character that is not whitespace. *)
Definition starts_word (s : string) : bool :=
  match s with
  | EmptyString => false
  | String c _ => negb (Text.isspace c)
  end.

(** [s] has no whitespace character. *)
Fixpoint solid (s : string) : bool :=
  match s with
  | EmptyString => true
  | String c s' => negb (Text.isspace c) && solid s'
  end.

(** ** Worlds for the scenarios *)

(** A process environment in which both keys are set, as the program needs
    them to be for a request to go out. *)
Definition configured : gmap string string :=
  <[ "BING_API_KEY" := "bing-key" ]> {[ "GEMINI_API_KEY" := "gemini-key" ]}.

(** No network: every request fails in transport; every page parses to an
    empty document. *)
Definition offline : world := {|
  environ := configured;
  search_session := λ _, Raise (Exn ClientError "Cannot connect to host");
  page_session := λ _ _, Raise (Exn ClientError "Cannot connect to host");
  requests_post := λ _, Raise (Exn RequestException "Connection refused");
  html_parser := λ _, Ok [];
  schedule := []
|}.

(** [w] with a given outcome for the search request. *)
Definition searching (w : world) (o : result response) : world := {|
  environ := environ w;
  search_session := λ _, o;
  page_session := page_session w;
  requests_post := requests_post w;
  html_parser := html_parser w;
  schedule := schedule w
|}.

(** A JSON body that lists the given entries. *)
Definition listing (entries : list pyval) : pyval :=
  PyDict {[ "webPages" := PyDict {[ "value" := PyList entries ]} ]}.

Definition one_entry : pyval :=
  PyDict (<[ "url" := PyStr "http://a" ]> {[ "name" := PyStr "A" ]}).

Definition one_result_response : response :=
  Response 200 (Ok (listing [one_entry])) (Ok "").

Definition one_result_world : world :=
  searching offline (Ok one_result_response).

(** Eleven well-formed entries and the SearchResults they give. *)
Definition eleven_entries : list pyval :=
  (λ n : nat,
     PyDict (<[ "url" := PyStr ("http://example.com/" +:+ pretty n) ]>
               {[ "name" := PyStr ("Result " +:+ pretty n) ]}))
  <$> seq 0 11.

Definition eleven_results : list pyval :=
  (λ n : nat,
     SearchResult (PyStr ("http://example.com/" +:+ pretty n))
       (PyStr ("Result " +:+ pretty n)))
  <$> seq 0 11.

(** The keys are set and the search is answered with status 200 and a list
    of eleven entries. *)
Definition eleven_results_world : world :=
  searching offline (Ok (Response 200 (Ok (listing eleven_entries)) (Ok ""))).

(** [w] with a given order of resumption of the page fetches. *)
Definition scheduling (w : world) (order : list nat) : world := {|
  environ := environ w;
  search_session := search_session w;
  page_session := page_session w;
  requests_post := requests_post w;
  html_parser := html_parser w;
  schedule := order
|}.

(** A parser for pages of plain text: the page is one string. *)
Definition plain_text_parser (html : string) : result (list Soup.markup) :=
  Ok [Soup.MString Soup.NavigableString html].

(** Three pages, fetched at positions 0, 1 and 2; the second is not found.
    The fetches are resumed, and so complete, in the reverse of their order. *)
Definition three_pages_world : world := {|
  environ := configured;
  search_session := λ _, Raise (Exn ClientError "Cannot connect to host");
  page_session := λ position _,
    match position with
    | 0%nat => Ok (Response 200 (Raise (Exn ContentTypeError "")) (Ok "first  page"))
    | 1%nat => Ok (Response 404 (Raise (Exn ContentTypeError "")) (Ok "Not Found"))
    | 2%nat => Ok (Response 200 (Raise (Exn ContentTypeError "")) (Ok " third page"))
    | _ => Raise (Exn TimeoutError "")
    end;
  requests_post := λ _, Raise (Exn RequestException "Connection refused");
  html_parser := plain_text_parser;
  schedule := [2; 1; 0; 2; 1; 0; 2; 1; 0]%nat
|}.

Definition three_results : list pyval :=
  [SearchResult (PyStr "http://a") (PyStr "A");
   SearchResult (PyStr "http://b") (PyStr "B");
   SearchResult (PyStr "http://c") (PyStr "C")].

(** A page with a navigation bar, and a parser that knows it. *)
Definition nav_page : string := "<nav>X</nav>Y".

Definition nav_world : world := {|
  environ := configured;
  search_session := λ _, Raise (Exn ClientError "Cannot connect to host");
  page_session := λ _ _, Ok (Response 200 (Raise (Exn ContentTypeError "")) (Ok nav_page));
  requests_post := λ _, Raise (Exn RequestException "Connection refused");
  html_parser := λ html,
    if String.eqb html nav_page then
      Ok [Soup.MElement "nav" [Soup.MString Soup.NavigableString "X"];
          Soup.MString Soup.NavigableString "Y"]
    else plain_text_parser html;
  schedule := []
|}.

(** The page of the end-to-end scenario, and a parser that knows it. *)
Definition hello_page : string := "<html><body>Hello World</body></html>".

Definition hello_parser (html : string) : result (list Soup.markup) :=
  if String.eqb html hello_page then Ok [wrap ["html"; "body"] "Hello World"]
  else plain_text_parser html.

(** The world of the end-to-end scenario: the search lists one result, for
    ["http://a"], and that URL serves [hello_page]. *)
Definition hello_world : world := {|
  environ := configured;
  search_session := λ _, Ok one_result_response;
  page_session := λ _ r,
    match req_url r with
    | PyStr "http://a" =>
        Ok (Response 200 (Raise (Exn ContentTypeError "")) (Ok hello_page))
    | _ => Raise (Exn ClientError "Cannot connect to host")
    end;
  requests_post := λ _, Raise (Exn RequestException "Connection refused");
  html_parser := hello_parser;
  schedule := []
|}.

(** A Summarizer stubbed to echo its input. *)
Definition echo (text : string) : coro pyval := mret (PyStr text).

(** The corpus of a list of URLs: the non-empty page texts, in order, joined
    by single spaces. *)
Definition corpus (w : world) (urls : list pyval) : string :=
  Text.join " "
    (filter (λ t, Text.nonempty t = true) (imap (page_text w) urls)).

(** [w] with a given outcome for the request of the summarizer. *)
Definition answering (w : world) (o : result response) : world := {|
  environ := environ w;
  search_session := search_session w;
  page_session := page_session w;
  requests_post := λ _, o;
  html_parser := html_parser w;
  schedule := schedule w
|}.

(** The end-to-end scenario: the search is what the scenario says it returns,
    the pages are fetched as the class does, the summarizer echoes. *)
Definition scenario (w : world) : methods := {|
  call_search_bing := λ _, mret [SearchResult (PyStr "http://a") (PyStr "A")];
  call_parallel_webpage_scraping := parallel_webpage_scraping w;
  call_summarize_with_gemini := echo
|}.

(** A summarisation service that answers 200 with an empty JSON object. *)
Definition malformed_world : world :=
  answering (searching offline (Ok (Response 200 (Ok PyNone) (Ok ""))))
    (Ok (Response 200 (Ok (PyDict ∅)) (Ok ""))).

(** Every service answers with status 503. *)
Definition unavailable : response :=
  Response 503 (Raise (Exn ContentTypeError "")) (Ok "Service Unavailable").

Definition unavailable_world : world := {|
  environ := configured;
  search_session := λ _, Ok unavailable;
  page_session := λ _ _, Ok unavailable;
  requests_post := λ _, Ok unavailable;
  html_parser := plain_text_parser;
  schedule := []
|}.

(** ** The form endpoint *)

(** What the view reads of a Flask request: the method and the form fields. *)
Record form_request : Type := FormRequest {
  method : string;
  form : gmap string string
}.

(** How a call of the view ends. *)
Inductive view_outcome : Type :=
| Rendered (page : string)            (* the page [render_template] returns *)
| TemplateFailure                     (* [render_template] raises *)
| BadRequestKeyError (field : string) (* [request.form[field]], field absent *)
| Unhandled (e : exn).                (* an exception of the pipeline *)

(** [index()], the view of the route ['/'] for GET and POST. The template
    [index.html] is not part of the source: [render_template] is given, with
    the name of the template and the value of [summary], and fails with
    [None]. The result is the trace of the call and its outcome. *)
Definition index (w : world)
  (render_template : string → pyval → option string)
  (request : form_request) : list event * view_outcome :=
  let render summary :=
    match render_template "index.html" summary with
    | Some page => Rendered page
    | None => TemplateFailure
    end in
  let summary := PyStr "" in
  if String.eqb (method request) "POST" then
    match form request !! "query" with
    | None => ([], BadRequestKeyError "query")
    | Some query =>
        let '(trace, outcome) := run_query w query in
        match outcome with
        | Ok summary => (trace, render summary)
        | Raise e => (trace, Unhandled e)
        end
    end
  else ([], render summary).

(** A template that shows the summary when it is a string. *)
Definition plain_template (name : string) (summary : pyval) : option string :=
  match summary with
  | PyStr s => Some ("<p>" +:+ s +:+ "</p>")
  | _ => None
  end.

(** A well-formed answer of the summarisation service. *)
Definition summary_response (summary : pyval) : response :=
  Response 200
    (Ok (PyDict {[ "candidates" :=
       PyList [PyDict {[ "content" :=
         PyDict {[ "parts" :=
           PyList [PyDict {[ "text" := summary ]}] ]} ]}] ]}))
    (Ok "").

(** ** Coroutines: how values and traces compose *)

Section Coroutines.
Context {A B : Type}.
Implicit Types (c : coro A) (f : A → coro B).

Lemma value_bind f c :
  value (c ≫= f) = value c ≫= (λ a, value (f a)).
Proof.
  unfold mbind, coro_mbind, result_mbind.
  induction c as [[a|e]|ev k IH|k IH]; simpl; auto.
Qed.

Lemma events_bind f c :
  events (c ≫= f) =
  events c ++ match value c with Ok a => events (f a) | Raise _ => [] end.
Proof.
  unfold mbind, coro_mbind.
  induction c as [[a|e]|ev k IH|k IH]; simpl; auto.
  by rewrite IH.
Qed.

Lemma value_try_except c (h : exn → coro A) :
  value (try_except c h) =
  match value c with
  | Ok a => Ok a
  | Raise e => if is_Exception e then value (h e) else Raise e
  end.
Proof.
  induction c as [[a|e]|ev k IH|k IH]; simpl; auto.
  by destruct (is_Exception e).
Qed.

Lemma value_emit_all (es : list event) c : value (emit_all es c) = value c.
Proof. induction es; simpl; auto. Qed.

Lemma events_emit_all (es : list event) c :
  events (emit_all es c) = es ++ events c.
Proof. induction es; simpl; congruence. Qed.

Lemma value_turn c : value (turn c).2 = value c.
Proof.
  induction c as [r|ev k IH|k IH]; simpl; auto.
  by destruct (turn k).
Qed.

Lemma finished_value c r : finished c = Some r → value c = r.
Proof. destruct c; simpl; congruence. Qed.
End Coroutines.

Lemma is_Exception_true e : is_Exception e = true.
Proof. by destruct e as [[] ?]. Qed.

Lemma value_comprehension {A B} (f : A → coro B) (l : list A) :
  value (comprehension f l) = mapM (λ x, value (f x)) l.
Proof.
  induction l as [|x l IH]; simpl; [done|].
  rewrite value_bind. destruct (value (f x)); simpl; [|done].
  rewrite value_bind, IH. by destruct (mapM _ l).
Qed.

Lemma value_lift {A} (r : result A) : value (lift r) = r.
Proof. done. Qed.
Lemma value_await {A} (r : result A) : value (await r) = r.
Proof. done. Qed.
Lemma value_mret {A} (a : A) : value (mret a) = Ok a.
Proof. done. Qed.
Lemma value_print line : value (print line) = Ok tt.
Proof. done. Qed.
Lemma value_session_get s r : value (session_get s r) = s r.
Proof. done. Qed.
Lemma value_post w r : value (post w r) = requests_post w r.
Proof. done. Qed.

Create Rewrite HintDb value.
#[local] Hint Rewrite @value_bind @value_lift @value_await @value_mret
  value_print value_session_get value_post : value.

Lemma mapM_ext {A B} (f g : A → result B) (l : list A) :
  (∀ x, f x = g x) → mapM f l = mapM g l.
Proof. intros E. induction l as [|x l IH]; simpl; [done|]. by rewrite E, IH. Qed.

Lemma mapM_length {A B} (f : A → result B) (l : list A) (l' : list B) :
  mapM f l = Ok l' → length l' = length l.
Proof.
  revert l'. induction l as [|x l IH]; intros l'; simpl.
  - by intros [= <-].
  - destruct (f x); [|done]. simpl. destruct (mapM f l); [|done]. simpl.
    intros [= <-]. simpl. f_equal. by apply IH.
Qed.

(** ** The Search Client *)

Lemma value_search_bing self w query :
  value (search_bing self w query) =
  match search_session w (bing_request self query) with
  | Raise e => Raise e
  | Ok resp =>
      if status resp =? 200 then listed resp ≫= mapM result_of_entry
      else Ok []
  end.
Proof.
  unfold search_bing.
  change (Request _ _ _ _ _) with (bing_request self query).
  autorewrite with value.
  destruct (search_session w (bing_request self query)) as [resp|e];
    cbn [mbind result_mbind]; [|done].
  destruct (status resp =? 200); [|by autorewrite with value].
  unfold listed. autorewrite with value.
  destruct (json resp) as [data|e]; cbn [mbind result_mbind]; [|done].
  autorewrite with value.
  destruct (get data "webPages" (PyDict ∅)) as [wp|e];
    cbn [mbind result_mbind]; [|done].
  autorewrite with value.
  destruct (get wp "value" (PyList [])) as [entries|e];
    cbn [mbind result_mbind]; [|done].
  autorewrite with value.
  destruct (iterate entries) as [l|e]; cbn [mbind result_mbind].
  2: done.
  rewrite value_comprehension. apply mapM_ext. intros x.
  unfold result_of_entry. autorewrite with value.
  destruct (get x "url" (PyStr "")); cbn [mbind result_mbind]; [|done].
  autorewrite with value.
  by destruct (get x "name" (PyStr "")).
Qed.

Lemma mapM_lookup {A B} (f : A → result B) (l : list A) (l' : list B) i x :
  mapM f l = Ok l' → l !! i = Some x → ∃ y, l' !! i = Some y ∧ f x = Ok y.
Proof.
  revert l' i. induction l as [|a l IH]; intros l' i; simpl; [done|].
  destruct (f a) as [b|] eqn:Ea; [|done]. simpl.
  destruct (mapM f l) as [bs|]; [|done]. simpl. intros [= <-].
  destruct i as [|i]; simpl.
  - intros [= <-]. eauto.
  - intros Hi. by apply IH.
Qed.

Lemma mapM_total {A B} (f : A → result B) (l : list A) :
  Forall (λ x, ∃ y, f x = Ok y) l → ∃ l', mapM f l = Ok l'.
Proof.
  induction 1 as [|x l [y Ey] _ [l' El']]; simpl; [by eexists|].
  rewrite Ey, El'. by eexists.
Qed.

Lemma result_of_entry_object fields :
  result_of_entry (PyDict fields) =
  Ok (SearchResult (default (PyStr "") (fields !! "url"))
        (default (PyStr "") (fields !! "name"))).
Proof. done. Qed.

Lemma listed_value resp body webPages entries :
  json resp = Ok (PyDict body) →
  body !! "webPages" = Some (PyDict webPages) →
  webPages !! "value" = Some (PyList entries) →
  listed resp = Ok entries.
Proof.
  intros Hj Hw Hv. unfold listed. rewrite Hj. cbn [mbind result_mbind get].
  rewrite Hw. cbn [from_option id mbind result_mbind get]. by rewrite Hv.
Qed.

Lemma mapM_Forall2 {A B} (f : A → result B) (l : list A) (l' : list B) :
  mapM f l = Ok l' → Forall2 (λ x y, f x = Ok y) l l'.
Proof.
  revert l'. induction l as [|x l IH]; intros l'; simpl.
  - intros [= <-]. constructor.
  - destruct (f x) as [y|] eqn:Ey; [|done]. simpl.
    destruct (mapM f l) as [ys|]; [|done]. simpl. intros [= <-].
    constructor; [done|]. by apply IH.
Qed.

(** What [search_bing] returns is a list of SearchResults: each one has a
    [url]. *)
Lemma search_bing_results_have_url self w query search_results :
  value (search_bing self w query) = Ok search_results →
  ∃ urls,
    Forall2 (λ result url, subscript result (KStr "url") = Ok url)
      search_results urls.
Proof.
  rewrite value_search_bing.
  destruct (search_session w (bing_request self query)) as [resp|e]; [|done].
  destruct (status resp =? 200).
  - destruct (listed resp) as [entries|e]; [|done]. cbn [mbind result_mbind].
    intros H%mapM_Forall2. clear -H.
    induction H as [|x y entries rs Hxy _ [urls IH]]; [by exists []|].
    unfold result_of_entry in Hxy.
    destruct (get x "url" (PyStr "")) as [url|]; [|done].
    cbn [mbind result_mbind] in Hxy.
    destruct (get x "name" (PyStr "")) as [title|]; [|done].
    injection Hxy as <-. exists (url :: urls). by constructor.
  - intros [= <-]. by exists [].
Qed.

(** C3. A status-200 response that lists [N <= 10] well-formed entries (JSON
    objects) gives exactly [N] SearchResults, in the order of the response;
    the [url] of each is the entry's [url] and its [title] the entry's [name],
    and a field the entry lacks is the empty string. *)
Theorem search_bing_returns_entries self w query resp
    (body webPages : gmap string pyval) (entries : list pyval) :
  search_session w (bing_request self query) = Ok resp →
  status resp = 200 →
  json resp = Ok (PyDict body) →
  body !! "webPages" = Some (PyDict webPages) →
  webPages !! "value" = Some (PyList entries) →
  Forall (λ entry, ∃ fields, entry = PyDict fields) entries →
  (length entries ≤ 10)%nat →
  ∃ results,
    value (search_bing self w query) = Ok results ∧
    length results = length entries ∧
    (length results ≤ 10)%nat ∧
    (∀ i fields, entries !! i = Some (PyDict fields) →
       results !! i =
         Some (SearchResult (default (PyStr "") (fields !! "url"))
                 (default (PyStr "") (fields !! "name")))) ∧
    (∀ i fields r, entries !! i = Some (PyDict fields) →
       results !! i = Some r →
       (fields !! "url" = None → subscript r (KStr "url") = Ok (PyStr "")) ∧
       (fields !! "name" = None → subscript r (KStr "title") = Ok (PyStr ""))).
Proof.
  intros Hs H200 Hj Hw Hv Hobj Hlen.
  rewrite value_search_bing, Hs, H200. cbn [Z.eqb Pos.eqb].
  rewrite (listed_value _ _ _ _ Hj Hw Hv). cbn [mbind result_mbind].
  destruct (mapM_total result_of_entry entries) as [results Hr].
  { eapply Forall_impl; [exact Hobj|]. intros ? [fields ->].
    rewrite result_of_entry_object. by eexists. }
  exists results. rewrite Hr.
  assert (Hat : ∀ i fields, entries !! i = Some (PyDict fields) →
            results !! i =
              Some (SearchResult (default (PyStr "") (fields !! "url"))
                      (default (PyStr "") (fields !! "name")))).
  { intros i fields Hi.
    destruct (mapM_lookup _ _ _ _ _ Hr Hi) as (y & Hy & Ey).
    rewrite result_of_entry_object in Ey. congruence. }
  pose proof (mapM_length _ _ _ Hr) as Hl.
  split; [done|]. split; [done|]. split; [lia|]. split; [exact Hat|].
  intros i fields r Hi Hri. rewrite (Hat _ _ Hi) in Hri. injection Hri as <-.
  split; intros Hnone; by rewrite Hnone.
Qed.

Lemma search_bing_returns_entries_witness :
  ∃ results,
    value (search_bing (init one_result_world) one_result_world "test")
      = Ok results ∧
    length results = 1%nat.
Proof.
  destruct (search_bing_returns_entries (init one_result_world)
              one_result_world "test" one_result_response
              {[ "webPages" := PyDict {[ "value" := PyList [one_entry] ]} ]}
              {[ "value" := PyList [one_entry] ]} [one_entry])
    as (results & Hv & Hl & _).
  - reflexivity.
  - reflexivity.
  - reflexivity.
  - reflexivity.
  - reflexivity.
  - repeat constructor. by eexists.
  - simpl. lia.
  - exists results. split; [exact Hv|exact Hl].
Defined.

(** C2, as stated, fails: the response decides how many results come back.
    The keys are set, the search is answered with status 200 and a list of 11
    entries, and 11 results are returned. *)
Lemma search_bing_not_capped :
  bing_api_key (init eleven_results_world) = PyStr "bing-key" ∧
  value (search_bing (init eleven_results_world) eleven_results_world "test")
    = Ok eleven_results ∧
  length eleven_results = 11%nat ∧
  ¬ (∀ self w query results,
       value (search_bing self w query) = Ok results →
       (length results ≤ 10)%nat).
Proof.
  assert (Hv : value (search_bing (init eleven_results_world)
                        eleven_results_world "test")
               = Ok eleven_results)
    by (vm_compute; reflexivity).
  split; [reflexivity|]. split; [exact Hv|]. split; [reflexivity|].
  intros H. specialize (H _ _ _ _ Hv). simpl in H. lia.
Qed.

(** C2, amended. The request asks the provider for [count = 10]; the results
    are as many as the entries the response lists, so they are at most 10
    whenever the response lists at most 10. *)
Theorem search_bing_length self w query results :
  value (search_bing self w query) = Ok results →
  subscript (req_params (bing_request self query)) (KStr "count")
    = Ok (PyInt 10) ∧
  ∃ resp,
    search_session w (bing_request self query) = Ok resp ∧
    length results = length (entries_in resp) ∧
    ((length (entries_in resp) ≤ 10)%nat → (length results ≤ 10)%nat).
Proof.
  rewrite value_search_bing. intros Hv. split; [done|].
  destruct (search_session w (bing_request self query)) as [resp|e]; [|done].
  exists resp. split; [done|]. unfold entries_in.
  assert (length results = length
            (if status resp =? 200
             then match listed resp with Ok l => l | Raise _ => [] end
             else [])) as ->; [|by auto].
  destruct (status resp =? 200).
  - destruct (listed resp) as [l|e]; [|done]. cbn [mbind result_mbind] in Hv.
    by apply mapM_length in Hv.
  - by injection Hv as <-.
Qed.

Lemma search_bing_length_witness :
  bing_api_key (init eleven_results_world) = PyStr "bing-key" ∧
  ∃ resp,
    search_session eleven_results_world
      (bing_request (init eleven_results_world) "test") = Ok resp ∧
    length (entries_in resp) = 11%nat ∧
    length eleven_results = length (entries_in resp).
Proof.
  split; [reflexivity|].
  destruct (search_bing_length (init eleven_results_world)
              eleven_results_world "test" eleven_results)
    as (_ & resp & Hr & Hl & _).
  - vm_compute. reflexivity.
  - exists resp. split; [exact Hr|]. split; [|exact Hl].
    rewrite <- Hl. reflexivity.
Defined.

(** C10. A status-200 response whose JSON object has no ["webPages"] key, or
    whose ["webPages"] object has no ["value"] key, gives the empty list: no
    exception is raised. *)
Theorem search_bing_missing_keys self w query resp (body : gmap string pyval) :
  search_session w (bing_request self query) = Ok resp →
  status resp = 200 →
  json resp = Ok (PyDict body) →
  body !! "webPages" = None ∨
  (∃ webPages : gmap string pyval,
     body !! "webPages" = Some (PyDict webPages) ∧ webPages !! "value" = None) →
  value (search_bing self w query) = Ok [].
Proof.
  intros Hs H200 Hj Hmiss.
  rewrite value_search_bing, Hs, H200. cbn [Z.eqb Pos.eqb].
  unfold listed. rewrite Hj. cbn [mbind result_mbind get].
  destruct Hmiss as [Hw|(webPages & Hw & Hv)]; rewrite Hw;
    cbn [from_option id mbind result_mbind get].
  - by rewrite lookup_empty.
  - by rewrite Hv.
Qed.

Lemma search_bing_missing_keys_witness :
  value (search_bing (init (searching offline (Ok (Response 200 (Ok (PyDict ∅)) (Ok "")))))
           (searching offline (Ok (Response 200 (Ok (PyDict ∅)) (Ok ""))))
           "test") = Ok [].
Proof.
  apply (search_bing_missing_keys _ _ _ (Response 200 (Ok (PyDict ∅)) (Ok "")) ∅).
  - reflexivity.
  - reflexivity.
  - reflexivity.
  - left. reflexivity.
Defined.

(** ** The Page Fetcher *)

Lemma value_fetch_webpage_content w position url :
  value (fetch_webpage_content w position url) = Ok (page_text w position url).
Proof.
  unfold fetch_webpage_content, page_text.
  change (Request url _ _ _ _) with (page_request url).
  rewrite value_try_except. autorewrite with value.
  destruct (page_session w position (page_request url)) as [resp|e];
    cbn [mbind result_mbind].
  - destruct (status resp =? 200).
    + autorewrite with value.
      destruct (text resp) as [html|e]; cbn [mbind result_mbind].
      * autorewrite with value.
        destruct (extract w html) as [t|e]; cbn [mbind result_mbind].
        -- by autorewrite with value.
        -- rewrite is_Exception_true. by autorewrite with value.
      * rewrite is_Exception_true. by autorewrite with value.
    + by autorewrite with value.
  - rewrite is_Exception_true. by autorewrite with value.
Qed.

(** ** The event loop *)

Lemma drain_value {A} (pool : list (coro A)) (results : list A) :
  Forall2 (λ c a, value c = Ok a) pool results →
  (drain pool).2 = Ok results.
Proof.
  induction 1 as [|c a pool results Hc _ IH]; simpl; [done|].
  rewrite Hc. destruct (drain pool) as [es r]. simpl in *. by rewrite IH.
Qed.

Lemma loop_value {A} (sched : list nat) (pool : list (coro A))
    (results : list A) :
  Forall2 (λ c a, value c = Ok a) pool results →
  (loop sched pool).2 = Ok results.
Proof.
  revert pool. induction sched as [|i sched IH]; intros pool Hpool; simpl.
  - by apply drain_value.
  - destruct (pool !! i) as [c|] eqn:Hi; [|by apply IH].
    destruct (Forall2_lookup_l _ _ _ _ _ Hpool Hi) as (a & Ha & Hc).
    pose proof (value_turn c) as Ht. destruct (turn c) as [es c']. simpl in Ht.
    assert (Hc' : value c' = Ok a) by congruence.
    assert (Hpool' : Forall2 (λ c a, value c = Ok a) (<[i := c']> pool) results).
    { rewrite <- (list_insert_id results i a) by done.
      by apply Forall2_insert. }
    specialize (IH _ Hpool').
    destruct (finished c') as [[a'|e]|] eqn:Hf.
    + destruct (loop sched (<[i:=c']> pool)). by simpl in *.
    + apply finished_value in Hf. congruence.
    + destruct (loop sched (<[i:=c']> pool)). by simpl in *.
Qed.

Lemma value_gather {A} (sched : list nat) (tasks : list (coro A))
    (results : list A) :
  Forall2 (λ c a, value c = Ok a) tasks results →
  value (gather sched tasks) = Ok results.
Proof.
  intros H. unfold gather. pose proof (loop_value sched _ _ H) as Hl.
  destruct (loop sched tasks) as [es r]. simpl in *.
  by rewrite value_emit_all.
Qed.

(** ** The Aggregator *)

Lemma fetch_tasks_value w i search_results urls :
  Forall2 (λ result url, subscript result (KStr "url") = Ok url)
    search_results urls →
  fetch_tasks w i search_results
  = Ok (imap (λ j, fetch_webpage_content w (i + j)) urls).
Proof.
  intros H. revert i. induction H as [|r u rs us Hu _ IH]; intros i; simpl.
  - done.
  - rewrite Hu. cbn [mbind result_mbind]. rewrite IH.
    cbn [mbind result_mbind mret result_ret]. do 2 f_equal.
    + f_equal. lia.
    + apply imap_ext. intros j x _. simpl. f_equal. lia.
Qed.

Lemma value_parallel_webpage_scraping w search_results urls :
  Forall2 (λ result url, subscript result (KStr "url") = Ok url)
    search_results urls →
  value (parallel_webpage_scraping w search_results)
  = Ok (Text.join " "
          (filter (λ s, Text.nonempty s = true) (imap (page_text w) urls))).
Proof.
  intros H. unfold parallel_webpage_scraping. autorewrite with value.
  rewrite (fetch_tasks_value w 0 _ _ H). cbn [mbind result_mbind].
  autorewrite with value.
  rewrite (value_gather _ _ (imap (page_text w) urls)).
  - cbn [mbind result_mbind]. by autorewrite with value.
  - clear H.
    assert (G : ∀ (f : nat → pyval → coro string) (g : nat → pyval → string),
              (∀ j u, value (f j u) = Ok (g j u)) →
              Forall2 (λ c a, value c = Ok a) (imap f urls) (imap g urls)).
    { induction urls as [|u urls IH]; intros f g Hfg; simpl; constructor; auto.
      apply IH. intros. apply Hfg. }
    apply G. intros j u. apply value_fetch_webpage_content.
Qed.

(** C5. The page fetch never raises. Whatever the request, the read of the
    body or the parser raises is caught and the result is the empty string; a
    status other than 200 gives the empty string too. *)
Theorem fetch_webpage_content_never_raises w position url :
  (∃ t, value (fetch_webpage_content w position url) = Ok t) ∧
  (∀ e, page_session w position (page_request url) = Raise e →
     value (fetch_webpage_content w position url) = Ok "") ∧
  (∀ resp e, page_session w position (page_request url) = Ok resp →
     text resp = Raise e →
     value (fetch_webpage_content w position url) = Ok "") ∧
  (∀ resp html e, page_session w position (page_request url) = Ok resp →
     text resp = Ok html → html_parser w html = Raise e →
     value (fetch_webpage_content w position url) = Ok "") ∧
  (∀ resp, page_session w position (page_request url) = Ok resp →
     status resp ≠ 200 →
     value (fetch_webpage_content w position url) = Ok "").
Proof.
  rewrite value_fetch_webpage_content. unfold page_text.
  split; [by eexists|]. split; [by intros e ->|].
  split; [|split].
  - intros resp e -> ->. by destruct (status resp =? 200).
  - intros resp html e -> -> Hp. cbn [mbind result_mbind].
    unfold extract, BeautifulSoup. rewrite Hp.
    by destruct (status resp =? 200).
  - intros resp -> Hs. by destruct (Z.eqb_spec (status resp) 200).
Qed.

Lemma fetch_webpage_content_never_raises_witness :
  value (fetch_webpage_content offline 0 (PyStr "http://a")) = Ok "" ∧
  value (fetch_webpage_content three_pages_world 1 (PyStr "http://b")) = Ok "".
Proof.
  split.
  - destruct (fetch_webpage_content_never_raises offline 0
                (PyStr "http://a")) as (_ & H & _).
    apply (H (Exn ClientError "Cannot connect to host")). reflexivity.
  - destruct (fetch_webpage_content_never_raises three_pages_world 1
                (PyStr "http://b")) as (_ & _ & _ & _ & H).
    apply (H (Response 404 (Raise (Exn ContentTypeError "")) (Ok "Not Found"))).
    + reflexivity.
    + simpl. lia.
Defined.

(** C4. The Aggregator returns the non-empty texts of the pages, in the order
    of the search results and separated by single spaces, in whatever order
    the event loop resumes the fetches; when every page text is empty it
    returns the empty string. The text of a page is what its fetch returns. *)
Theorem parallel_webpage_scraping_joins w search_results urls :
  Forall2 (λ result url, subscript result (KStr "url") = Ok url)
    search_results urls →
  (∀ position url,
     value (fetch_webpage_content w position url)
     = Ok (page_text w position url)) ∧
  value (parallel_webpage_scraping w search_results)
  = Ok (Text.join " "
          (filter (λ t, Text.nonempty t = true) (imap (page_text w) urls))) ∧
  (∀ order,
     value (parallel_webpage_scraping (scheduling w order) search_results)
     = value (parallel_webpage_scraping w search_results)) ∧
  (Forall (λ t, t = "") (imap (page_text w) urls) →
   value (parallel_webpage_scraping w search_results) = Ok "").
Proof.
  intros H. split; [apply value_fetch_webpage_content|]. split; [|split].
  - by apply value_parallel_webpage_scraping.
  - intros order.
    by rewrite !(value_parallel_webpage_scraping _ _ _ H).
  - intros Hempty. rewrite (value_parallel_webpage_scraping _ _ _ H).
    f_equal. induction Hempty as [|t ts -> _ IH]; [done|].
    by rewrite filter_cons_False.
Qed.

Lemma parallel_webpage_scraping_joins_witness :
  value (parallel_webpage_scraping three_pages_world three_results)
  = Ok "first page third page".
Proof.
  destruct (parallel_webpage_scraping_joins three_pages_world three_results
              [PyStr "http://a"; PyStr "http://b"; PyStr "http://c"])
    as (_ & H & _).
  - repeat constructor.
  - rewrite H. vm_compute. reflexivity.
Defined.

(** ** Text: splitting, joining, stripping *)

Section TextFacts.
Import Text.
Implicit Types (s w : string) (ws : list string) (c : ascii).

Lemma split_from_space c s :
  isspace c = true →
  split_from (String c s) = (EmptyString, split s).
Proof.
  intros Hc. unfold split. simpl. rewrite Hc. by destruct (split_from s).
Qed.

Lemma split_from_char c s :
  isspace c = false →
  split_from (String c s)
  = (String c (split_from s).1, (split_from s).2).
Proof. intros Hc. simpl. rewrite Hc. by destruct (split_from s). Qed.

Lemma split_space c s : isspace c = true → split (String c s) = split s.
Proof. intros Hc. unfold split at 1. by rewrite split_from_space. Qed.

Lemma split_char c s :
  isspace c = false →
  split (String c s) = String c (split_from s).1 :: (split_from s).2.
Proof. intros Hc. unfold split. by rewrite split_from_char. Qed.

Lemma split_from_rstrip s : split_from (rstrip s) = split_from s.
Proof.
  induction s as [|c s IH]; [done|]. cbn [rstrip].
  destruct (rstrip s) as [|c' r] eqn:Hr.
  - destruct (isspace c) eqn:Hc.
    + rewrite split_from_space by done. unfold split. by rewrite <- IH.
    + rewrite !(split_from_char c) by done. by rewrite <- IH.
  - destruct (isspace c) eqn:Hc.
    + rewrite !(split_from_space c) by done. unfold split. by rewrite IH.
    + rewrite !(split_from_char c) by done. by rewrite IH.
Qed.

Lemma split_lstrip s : split (lstrip s) = split s.
Proof.
  induction s as [|c s IH]; [done|]. cbn [lstrip].
  destruct (isspace c) eqn:Hc; [|done]. by rewrite split_space.
Qed.

Lemma split_strip s : split (strip s) = split s.
Proof.
  unfold strip. rewrite split_lstrip. unfold split.
  by rewrite split_from_rstrip.
Qed.

(** The head word has no whitespace and the words after it are words. *)
Lemma split_from_words s :
  solid (split_from s).1 = true ∧
  Forall (λ w, starts_word w = true ∧ solid w = true) (split_from s).2.
Proof.
  induction s as [|c s [IHw IHws]]; [by split|].
  destruct (isspace c) eqn:Hc.
  - rewrite split_from_space by done. split; [done|]. unfold split.
    destruct (split_from s) as [[|c' w] ws]; [done|]. simpl in *.
    constructor; [|done]. split; [|done].
    by apply andb_prop in IHw as [? _].
  - rewrite split_from_char by done. simpl. by rewrite Hc.
Qed.

Lemma split_words s :
  Forall (λ w, starts_word w = true ∧ solid w = true) (split s).
Proof.
  destruct (split_from_words s) as [Hw Hws]. unfold split.
  destruct (split_from s) as [[|c w] ws]; [done|]. simpl in *.
  constructor; [|done]. split; [|done]. by apply andb_prop in Hw as [? _].
Qed.

Lemma joined_from_char c s :
  isspace c = false → joined_from (String c s) = String c (joined_from s).
Proof.
  intros Hc. unfold joined_from. rewrite split_from_char by done.
  by destruct (split_from s) as [w [|w' ws]].
Qed.

Lemma joined_from_space c s :
  isspace c = true →
  joined_from (String c s)
  = match split s with
    | [] => EmptyString
    | ws => String " " (join " " ws)
    end.
Proof.
  intros Hc. unfold joined_from. rewrite split_from_space by done.
  by destruct (split s).
Qed.

Lemma joined_from_word s :
  starts_word s = true → joined_from s = join " " (split s).
Proof.
  destruct s as [|c s]; [done|]. simpl. intros Hc%negb_true_iff.
  unfold joined_from. rewrite split_char, split_from_char by done. done.
Qed.

Lemma rstrip_char c s :
  isspace c = false → rstrip (String c s) = String c (rstrip s).
Proof. intros Hc. simpl. rewrite Hc. by destruct (rstrip s). Qed.

Lemma rstrip_squeeze s : rstrip (squeeze s) = joined_from s.
Proof.
  induction s as [|c s IH]; [done|]. cbn [squeeze].
  destruct (isspace c) eqn:Hc.
  - rewrite joined_from_space by done. destruct s as [|c' s]; [done|].
    destruct (isspace c') eqn:Hc'.
    + rewrite IH, joined_from_space by done. by rewrite (split_space c').
    + rewrite split_char by done. cbn iota.
      rewrite <- (split_char c' s) by done.
      rewrite <- joined_from_word by (by simpl; rewrite Hc').
      cbn [rstrip]. rewrite IH. by rewrite (joined_from_char c' s).
  - rewrite rstrip_char, joined_from_char by done. by rewrite IH.
Qed.

Lemma join_starts_word ws :
  Forall (λ w, starts_word w = true ∧ solid w = true) ws →
  ws ≠ [] → starts_word (join " " ws) = true.
Proof.
  intros [|w ws' [Hw _] _]; [done|]. intros _.
  destruct w as [|c w]; [done|]. by destruct ws'.
Qed.

Lemma lstrip_word s : starts_word s = true → lstrip s = s.
Proof. destruct s as [|c s]; [done|]. simpl. by intros ->%negb_true_iff. Qed.

Lemma lstrip_joined_from s : lstrip (joined_from s) = join " " (split s).
Proof.
  destruct s as [|c s]; [done|]. destruct (isspace c) eqn:Hc.
  - rewrite joined_from_space, split_space by done.
    pose proof (split_words s) as Hws.
    destruct (split s) as [|w ws] eqn:Hs; [done|].
    cbn [lstrip]. change (isspace " ") with true. cbn iota.
    apply lstrip_word. by apply join_starts_word.
  - rewrite joined_from_word by (by simpl; rewrite Hc).
    apply lstrip_word. apply join_starts_word; [apply split_words|].
    by rewrite split_char.
Qed.

(** Splitting and joining with single spaces collapses the runs of
    whitespace and trims both ends. *)
Lemma join_split_collapse s : join " " (split s) = collapse s.
Proof.
  unfold collapse, strip. by rewrite rstrip_squeeze, lstrip_joined_from.
Qed.

Lemma squeeze_single_spaced s : single_spaced s = true → squeeze s = s.
Proof.
  induction s as [|c s IH]; [done|]. cbn [single_spaced squeeze].
  intros [Hc Hs]%andb_prop. rewrite (IH Hs).
  destruct (isspace c); [|done].
  apply andb_prop in Hc as [->%Ascii.eqb_eq Hn].
  destruct s as [|c' s]; [done|]. by apply negb_true_iff in Hn as ->.
Qed.

Lemma rstrip_single_spaced s : single_spaced s = true → rstrip s = s.
Proof.
  induction s as [|c s IH]; [done|]. cbn [single_spaced rstrip].
  intros [Hc Hs]%andb_prop. rewrite (IH Hs).
  destruct s as [|c' s]; [|done].
  destruct (isspace c); [|done]. by apply andb_prop in Hc as [_ ?].
Qed.

(** Already-normalized text is left as it is. *)
Lemma collapse_normalized s : normalized s = true → collapse s = s.
Proof.
  unfold normalized, collapse, strip. intros [Hs Hh]%andb_prop.
  rewrite squeeze_single_spaced, rstrip_single_spaced by done.
  destruct s as [|c s]; [done|]. by apply lstrip_word.
Qed.

Lemma single_spaced_solid w : solid w = true → single_spaced w = true.
Proof.
  induction w as [|c w IH]; [done|]. simpl.
  intros [->%negb_true_iff Hw]%andb_prop. by apply IH.
Qed.

Lemma single_spaced_solid_app w s :
  solid w = true → single_spaced (w +:+ s) = single_spaced s.
Proof.
  induction w as [|c w IH]; [done|]. simpl.
  intros [->%negb_true_iff Hw]%andb_prop. by apply IH.
Qed.

Lemma join_cons sep w w' ws :
  join sep (w :: w' :: ws) = w +:+ sep +:+ join sep (w' :: ws).
Proof. done. Qed.

Lemma single_spaced_join ws :
  Forall (λ w, starts_word w = true ∧ solid w = true) ws →
  single_spaced (join " " ws) = true.
Proof.
  induction 1 as [|w ws [Hw Hs] Hws IH]; [done|].
  destruct ws as [|w' ws]; [by apply single_spaced_solid|].
  pose proof (join_starts_word (w' :: ws) Hws) as Hj.
  rewrite join_cons, single_spaced_solid_app by done.
  destruct (join " " (w' :: ws)) as [|c x]; [by discriminate Hj|].
  change (" " +:+ ?y) with (String " " y). cbn [single_spaced].
  change (isspace " ") with true. cbn iota.
  cbn [single_spaced] in IH. rewrite IH. simpl in Hj. by rewrite Hj.
Qed.

(** The outcome of splitting and joining is normalized. *)
Lemma normalized_collapse s : normalized (collapse s) = true.
Proof.
  rewrite <- join_split_collapse. pose proof (split_words s) as Hws.
  unfold normalized. rewrite single_spaced_join by done.
  destruct (split s) as [|w ws] eqn:Hs; [done|].
  pose proof (join_starts_word (w :: ws) Hws) as Hj.
  destruct (join " " (w :: ws)) as [|c x]; [done|]. by apply Hj.
Qed.

Lemma collapse_idempotent s : collapse (collapse s) = collapse s.
Proof. apply collapse_normalized, normalized_collapse. Qed.
End TextFacts.

(** ** The document tree *)

Section SoupFacts.
Import Soup.

Lemma markup_induction (P : markup → Prop) :
  (∀ cls s, P (MString cls s)) →
  (∀ name ms, Forall P ms → P (MElement name ms)) →
  ∀ m, P m.
Proof.
  intros Hs He. fix IH 1. intros [cls s|name ms]; [apply Hs|].
  apply He. induction ms as [|m ms IHms]; constructor; [apply IH|apply IHms].
Qed.

Lemma node_induction (P : node → Prop) :
  (∀ cls s, P (Str cls s)) →
  (∀ id name cs, Forall P cs → P (Tag id name cs)) →
  ∀ x, P x.
Proof.
  intros Hs Ht. fix IH 1. intros [cls s|id name cs]; [apply Hs|].
  apply Ht. induction cs as [|c cs IHcs]; constructor; [apply IH|apply IHcs].
Qed.

Lemma build_element n name ms :
  build n (MElement name ms)
  = (Tag n name (build_all (S n) ms).1, (build_all (S n) ms).2).
Proof.
  change (build n (MElement name ms))
    with (let '(cs, n') := build_all (S n) ms in (Tag n name cs, n')).
  by destruct (build_all (S n) ms).
Qed.

Lemma build_all_cons n m ms :
  build_all n (m :: ms)
  = ((build n m).1 :: (build_all (build n m).2 ms).1,
     (build_all (build n m).2 ms).2).
Proof.
  cbn [build_all]. destruct (build n m) as [c n1]. cbn [fst snd].
  by destruct (build_all n1 ms).
Qed.

Lemma descendants_cons x soup :
  descendants (x :: soup) = descendants_of x ++ descendants soup.
Proof. done. Qed.

Lemma descendants_of_tag id name cs :
  descendants_of (Tag id name cs) = Tag id name cs :: descendants cs.
Proof. done. Qed.

Lemma descendants_app soup1 soup2 :
  descendants (soup1 ++ soup2) = descendants soup1 ++ descendants soup2.
Proof. apply flat_map_app. Qed.

Lemma tags_cons x soup : tags (x :: soup) = tags [x] ++ tags soup.
Proof.
  unfold tags. rewrite !descendants_cons, !omap_app. simpl.
  by rewrite app_nil_r.
Qed.

Lemma tags_tag id name cs : tags [Tag id name cs] = (id, name) :: tags cs.
Proof.
  unfold tags. rewrite descendants_cons, descendants_of_tag. simpl.
  by rewrite app_nil_r.
Qed.

Lemma all_strings_cons strip x soup :
  all_strings strip (x :: soup)
  = all_strings strip [x] ++ all_strings strip soup.
Proof.
  unfold all_strings. rewrite !descendants_cons, !omap_app. simpl.
  by rewrite app_nil_r.
Qed.

Lemma all_strings_tag strip id name cs :
  all_strings strip [Tag id name cs] = all_strings strip cs.
Proof.
  unfold all_strings. rewrite descendants_cons, descendants_of_tag. simpl.
  by rewrite app_nil_r.
Qed.

(** *** Decomposing the tags found, one after the other *)

Lemma omap_compose {A B C} (f : A → option B) (g : B → option C)
    (l : list A) :
  omap g (omap f l) = omap (λ x, f x ≫= g) l.
Proof.
  induction l as [|x l IH]; [done|]. csimpl.
  destruct (f x) as [y|]; csimpl; [|done]. rewrite IH. by destruct (g y).
Qed.

Lemma omap_ext_Forall {A B} (f g : A → option B) (l : list A) :
  Forall (λ x, f x = g x) l → omap f l = omap g l.
Proof. induction 1 as [|x l E _ IH]; [done|]. csimpl. by rewrite E, IH. Qed.

Lemma prune_nil x : prune [] x = Some x.
Proof.
  induction x as [cls s|id name cs IH] using node_induction; [done|].
  cbn [prune]. rewrite bool_decide_eq_false_2 by apply not_elem_of_nil.
  do 2 f_equal. induction IH as [|c cs E _ IHcs]; [done|].
  csimpl. by rewrite E, IHcs.
Qed.

Lemma prune_without ids i x :
  without i x ≫= prune ids = prune (i :: ids) x.
Proof.
  induction x as [cls s|id name cs IH] using node_induction; [done|].
  cbn [without prune]. destruct (Nat.eqb_spec id i) as [->|Hne];
    cbn [mbind option_bind prune].
  - by rewrite bool_decide_eq_true_2 by left.
  - destruct (decide (id ∈ ids)) as [Hin|Hin].
    + by rewrite !bool_decide_eq_true_2 by (done || by right).
    + rewrite !bool_decide_eq_false_2
        by (done || by intros [?|?]%elem_of_cons).
      do 2 f_equal. rewrite omap_compose. by apply omap_ext_Forall.
Qed.

Lemma decompose_found ids soup :
  fold_left decompose ids soup = omap (prune ids) soup.
Proof.
  revert soup. induction ids as [|i ids IH]; intros soup; simpl.
  - induction soup as [|x soup IHs]; [done|]. csimpl.
    by rewrite prune_nil, <- IHs.
  - rewrite IH. unfold decompose. rewrite omap_compose.
    apply omap_ext_Forall, Forall_forall. intros x _. apply prune_without.
Qed.

(** *** Identities are allocated once *)

Lemma build_ids m :
  ∀ n, (n ≤ (build n m).2)%nat ∧
       NoDup (tags [(build n m).1]).*1 ∧
       ∀ id, id ∈ (tags [(build n m).1]).*1 →
             (n ≤ id < (build n m).2)%nat.
Proof.
  induction m as [cls s|name ms IH] using markup_induction; intros n.
  - simpl. split; [lia|]. split; [constructor|]. by intros id ?%elem_of_nil.
  - rewrite build_element. cbn [fst snd]. rewrite tags_tag.
    assert (Hall : ∀ k, (k ≤ (build_all k ms).2)%nat ∧
              NoDup (tags (build_all k ms).1).*1 ∧
              ∀ id, id ∈ (tags (build_all k ms).1).*1 →
                    (k ≤ id < (build_all k ms).2)%nat).
    { induction IH as [|m ms Hm _ IHms]; intros k.
      - simpl. split; [lia|]. split; [constructor|].
        by intros id ?%elem_of_nil.
      - rewrite build_all_cons. cbn [fst snd]. rewrite tags_cons, fmap_app.
        destruct (Hm k) as (Hle1 & Hnd1 & Hin1).
        destruct (IHms (build k m).2) as (Hle2 & Hnd2 & Hin2).
        split; [lia|]. split.
        + apply NoDup_app. split; [done|]. split; [|done].
          intros id H1%Hin1 H2%Hin2. lia.
        + intros id [H1%Hin1|H2%Hin2]%elem_of_app; lia. }
    destruct (Hall (S n)) as (Hle & Hnd & Hin).
    split; [lia|]. split.
    + rewrite fmap_cons. apply NoDup_cons. split; [|done].
      intros H%Hin. simpl in H. lia.
    + rewrite fmap_cons. intros id [->|H%Hin]%elem_of_cons; simpl; lia.
Qed.

Lemma build_all_ids ms :
  ∀ n, (n ≤ (build_all n ms).2)%nat ∧
       NoDup (tags (build_all n ms).1).*1 ∧
       ∀ id, id ∈ (tags (build_all n ms).1).*1 →
             (n ≤ id < (build_all n ms).2)%nat.
Proof.
  induction ms as [|m ms IHms]; intros k.
  - simpl. split; [lia|]. split; [constructor|]. by intros id ?%elem_of_nil.
  - rewrite build_all_cons. cbn [fst snd]. rewrite tags_cons, fmap_app.
    destruct (build_ids m k) as (Hle1 & Hnd1 & Hin1).
    destruct (IHms (build k m).2) as (Hle2 & Hnd2 & Hin2).
    split; [lia|]. split.
    + apply NoDup_app. split; [done|]. split; [|done].
      intros id H1%Hin1 H2%Hin2. lia.
    + intros id [H1%Hin1|H2%Hin2]%elem_of_app; lia.
Qed.

(** *** What is found is what is listed *)

Lemma elem_of_find_all names soup id :
  id ∈ find_all names soup ↔
  ∃ name, (id, name) ∈ tags soup ∧ name ∈ names.
Proof.
  unfold find_all, tags. rewrite list_elem_of_omap. split.
  - intros (x & Hx & Hn). destruct x as [|id' name cs]; [done|].
    simpl in Hn. case_bool_decide; [|done]. injection Hn as ->.
    exists name. split; [|done]. apply list_elem_of_omap. by eexists.
  - intros (name & (x & Hx & Ht)%list_elem_of_omap & Hn).
    exists x. split; [done|]. destruct x as [|id' name' cs]; [done|].
    injection Ht as -> ->. simpl. by rewrite bool_decide_eq_true_2.
Qed.

Lemma NoDup_fst_functional {A B} (l : list (A * B)) x y1 y2 :
  NoDup l.*1 → (x, y1) ∈ l → (x, y2) ∈ l → y1 = y2.
Proof.
  induction l as [|[a b] l IH]; csimpl; [by intros _ ?%elem_of_nil|].
  intros [Hn Hnd]%NoDup_cons H1%elem_of_cons H2%elem_of_cons.
  assert (Hfst : ∀ y, (x, y) ∈ l → x ∈ l.*1).
  { intros y Hy. apply list_elem_of_fmap. by exists (x, y). }
  destruct H1 as [E1|H1], H2 as [E2|H2].
  - congruence.
  - injection E1 as -> ->. destruct Hn. by eapply Hfst.
  - injection E2 as -> ->. destruct Hn. by eapply Hfst.
  - by apply IH.
Qed.

Lemma found_iff_listed names soup id name :
  NoDup (tags soup).*1 →
  (id, name) ∈ tags soup →
  id ∈ find_all names soup ↔ name ∈ names.
Proof.
  intros Hnd Hin. rewrite elem_of_find_all. split.
  - intros (name' & Hin' & Hn).
    by rewrite (NoDup_fst_functional _ _ _ _ Hnd Hin Hin').
  - intros Hn. by exists name.
Qed.

(** *** The strings that are left *)

Lemma all_strings_app strip soup1 soup2 :
  all_strings strip (soup1 ++ soup2)
  = all_strings strip soup1 ++ all_strings strip soup2.
Proof. unfold all_strings. by rewrite descendants_app, omap_app. Qed.

Lemma omap_cons_app {A B} (f : A → option B) x l :
  omap f (x :: l) = omap f [x] ++ omap f l.
Proof. by rewrite <- omap_app. Qed.

Lemma strings_pruned_all names ids ms :
  Forall (λ m, ∀ n,
    (∀ id name, (id, name) ∈ tags [(build n m).1] →
                id ∈ ids ↔ name ∈ names) →
    all_strings true (omap (prune ids) [(build n m).1]) = visible names m)
    ms →
  ∀ n,
    (∀ id name, (id, name) ∈ tags (build_all n ms).1 →
                id ∈ ids ↔ name ∈ names) →
    all_strings true (omap (prune ids) (build_all n ms).1)
    = List.flat_map (visible names) ms.
Proof.
  induction 1 as [|m ms Hm _ IH]; intros n Hids; [done|].
  rewrite build_all_cons in Hids |- *. cbn [fst] in Hids |- *.
  rewrite tags_cons in Hids.
  rewrite omap_cons_app, all_strings_app. cbn [List.flat_map]. f_equal.
  - apply Hm. intros id name Hin. apply Hids, elem_of_app. by left.
  - apply IH. intros id name Hin. apply Hids, elem_of_app. by right.
Qed.

Lemma strings_pruned names ids m :
  ∀ n,
    (∀ id name, (id, name) ∈ tags [(build n m).1] →
                id ∈ ids ↔ name ∈ names) →
    all_strings true (omap (prune ids) [(build n m).1]) = visible names m.
Proof.
  induction m as [cls s|name ms IH] using markup_induction; intros n Hids.
  - cbn. destruct (interesting cls); [|done].
    by destruct (Text.nonempty (Text.strip s)).
  - rewrite build_element in Hids |- *. cbn [fst] in Hids |- *.
    rewrite tags_tag in Hids. csimpl. cbn [prune visible].
    destruct (decide (name ∈ names)) as [Hn|Hn].
    + rewrite !bool_decide_eq_true_2; [done|done|].
      apply (Hids n name); [by left|done].
    + rewrite !bool_decide_eq_false_2; [|done|].
      * rewrite all_strings_tag. apply strings_pruned_all; [done|].
        intros id name' Hin. apply Hids. by right.
      * intros Hin. apply Hn, (Hids n name); [by left|done].
Qed.

(** The text read off a page: the strings outside the removed tags, joined
    by single spaces, with whitespace collapsed. *)
Lemma extract_text_visible ms :
  extract_text (soup_of ms)
  = collapse (Text.join " " (List.flat_map (visible removed_tags) ms)).
Proof.
  unfold extract_text, get_text. rewrite join_split_collapse, decompose_found.
  do 2 f_equal. unfold soup_of.
  apply strings_pruned_all.
  - apply Forall_forall. intros m _. apply strings_pruned.
  - intros id name Hin. apply found_iff_listed; [|done].
    apply build_all_ids.
Qed.
End SoupFacts.

(** ** The Content Extractor *)

Lemma tags_app soup1 soup2 : tags (soup1 ++ soup2) = tags soup1 ++ tags soup2.
Proof. unfold tags. by rewrite descendants_app, omap_app. Qed.

Lemma tags_prune ids soup id name :
  (id, name) ∈ tags (omap (prune ids) soup) →
  (id, name) ∈ tags soup ∧ id ∉ ids.
Proof.
  revert id name.
  assert (Hnode : ∀ x id name,
            (id, name) ∈ tags (omap (prune ids) [x]) →
            (id, name) ∈ tags [x] ∧ id ∉ ids).
  { induction x as [cls s|i n cs IH] using node_induction; intros id name.
    - by intros ?%elem_of_nil.
    - csimpl. cbn [prune]. case_bool_decide as Hi; [by intros ?%elem_of_nil|].
      rewrite !tags_tag. intros [[= -> ->]|Hin]%elem_of_cons.
      + split; [by left|done].
      + assert (Hcs : (id, name) ∈ tags cs ∧ id ∉ ids).
        { clear Hi. induction IH as [|c cs Hc _ IHcs];
            [by apply elem_of_nil in Hin|].
          rewrite omap_cons_app, tags_app in Hin. rewrite tags_cons.
          apply elem_of_app in Hin as [Hin|Hin].
          - destruct (Hc _ _ Hin). split; [|done]. apply elem_of_app. by left.
          - destruct (IHcs Hin). split; [|done]. apply elem_of_app. by right. }
        destruct Hcs. split; [by right|done]. }
  induction soup as [|x soup IH]; intros id name Hin;
    [by apply elem_of_nil in Hin|].
  rewrite omap_cons_app, tags_app in Hin. rewrite tags_cons.
  apply elem_of_app in Hin as [Hin|Hin].
  - destruct (Hnode _ _ _ Hin). split; [|done]. apply elem_of_app. by left.
  - destruct (IH _ _ Hin). split; [|done]. apply elem_of_app. by right.
Qed.

(** After the loop of the page fetch no tag of a listed name is left. *)
Lemma no_listed_tag_left names soup id name :
  (id, name)
    ∈ tags (fold_left Soup.decompose (Soup.find_all names soup) soup) →
  name ∉ names.
Proof.
  rewrite decompose_found. intros [Hin Hid]%tags_prune Hn.
  apply Hid, elem_of_find_all. by exists name.
Qed.

Lemma extract_parsed w html ms :
  html_parser w html = Ok ms →
  extract w html
  = Ok (collapse (Text.join " " (List.flat_map (visible removed_tags) ms))).
Proof.
  intros Hp. unfold extract, BeautifulSoup. rewrite Hp.
  cbn [mbind result_mbind mret result_ret]. by rewrite extract_text_visible.
Qed.

Lemma collapse_strip s : collapse (Text.strip s) = collapse s.
Proof. by rewrite <- !join_split_collapse, split_strip. Qed.

Lemma visible_wrap tags plain_text :
  Forall (λ tag, tag ∉ removed_tags) tags →
  Text.join " " (visible removed_tags (wrap tags plain_text))
  = Text.strip plain_text.
Proof.
  induction 1 as [|tag tags Htag _ IH]; cbn [wrap visible].
  - cbn. by destruct (Text.strip plain_text).
  - rewrite bool_decide_eq_false_2 by done. cbn [List.flat_map].
    by rewrite app_nil_r.
Qed.

(** C6. The loop of the page fetch leaves no script, style, nav, header or
    footer element in the tree, and the text extracted from a page is made of
    the strings that lie outside every such element: what it contains, at any
    depth, adds nothing. For a page that parses to [<nav>X</nav>Y] the output
    is made of [Y]; [X] plays no part. *)
Theorem extract_removes_subtrees w html ms :
  html_parser w html = Ok ms →
  extract w html
  = Ok (collapse (Text.join " " (List.flat_map (visible removed_tags) ms))) ∧
  (∀ id name,
     (id, name)
       ∈ tags (fold_left Soup.decompose
                 (Soup.find_all ["script"; "style"; "nav"; "header"; "footer"]
                    (Soup.soup_of ms))
                 (Soup.soup_of ms)) →
     name ∉ ["script"; "style"; "nav"; "header"; "footer"]) ∧
  (∀ name inner,
     name ∈ ["script"; "style"; "nav"; "header"; "footer"] →
     visible removed_tags (Soup.MElement name inner) = []) ∧
  (∀ X Y,
     ms = [Soup.MElement "nav" [Soup.MString Soup.NavigableString X];
           Soup.MString Soup.NavigableString Y] →
     extract w html = Ok (collapse Y)).
Proof.
  intros Hp. split; [by apply extract_parsed|].
  split; [intros id name; by apply no_listed_tag_left|]. split.
  - intros name inner Hn. cbn [visible].
    by rewrite bool_decide_eq_true_2.
  - intros X Y ->. rewrite (extract_parsed _ _ _ Hp).
    rewrite <- (collapse_strip Y). do 2 f_equal.
    cbn. by destruct (Text.strip Y).
Qed.

Lemma extract_removes_subtrees_witness :
  extract nav_world nav_page = Ok "Y" ∧
  Text.contains "Y" "Y" = true ∧ Text.contains "X" "Y" = false.
Proof.
  destruct (extract_removes_subtrees nav_world nav_page
              [Soup.MElement "nav" [Soup.MString Soup.NavigableString "X"];
               Soup.MString Soup.NavigableString "Y"])
    as (_ & _ & _ & H).
  - reflexivity.
  - rewrite (H "X" "Y"); [|reflexivity]. repeat split.
Defined.

(** C7. Plain text wrapped in tags that are not removed comes out with its
    runs of whitespace collapsed to single spaces and its ends trimmed; text
    that is already normalized comes out unchanged, and the output is always
    normalized. *)
Theorem extract_plain_text w html tags plain_text :
  html_parser w html = Ok [wrap tags plain_text] →
  Forall (λ tag, tag ∉ removed_tags) tags →
  extract w html = Ok (collapse plain_text) ∧
  (normalized plain_text = true → extract w html = Ok plain_text) ∧
  normalized (collapse plain_text) = true ∧
  collapse (collapse plain_text) = collapse plain_text.
Proof.
  intros Hp Htags.
  assert (He : extract w html = Ok (collapse plain_text)).
  { rewrite (extract_parsed _ _ _ Hp). cbn [List.flat_map].
    rewrite app_nil_r, visible_wrap by done. by rewrite collapse_strip. }
  split; [done|]. split; [|split].
  - intros Hn. by rewrite He, collapse_normalized.
  - apply normalized_collapse.
  - apply collapse_idempotent.
Qed.

Lemma extract_plain_text_witness :
  extract hello_world hello_page = Ok "Hello World".
Proof.
  destruct (extract_plain_text hello_world hello_page ["html"; "body"]
              "Hello World") as (_ & H & _).
  - reflexivity.
  - apply (bool_decide_unpack _). vm_compute. exact I.
  - apply H. reflexivity.
Defined.

(** ** Traces: what each stage puts on the wire and on the console *)

Lemma events_try_except {A} (c : coro A) (h : exn → coro A) :
  events (try_except c h) =
  events c ++ match value c with
              | Ok _ => []
              | Raise e => if is_Exception e then events (h e) else []
              end.
Proof.
  induction c as [[a|e]|ev k IH|k IH]; simpl; auto.
  - by destruct (is_Exception e).
  - by rewrite IH.
Qed.

Lemma events_comprehension {A B} (f : A → coro B) (l : list A) :
  (∀ x, events (f x) = []) → events (comprehension f l) = [].
Proof.
  intros Hf. induction l as [|x l IH]; [done|]. cbn [comprehension].
  rewrite events_bind, Hf. destruct (value (f x)); [|done].
  rewrite events_bind, IH. by destruct (value (comprehension f l)).
Qed.

Lemma events_turn {A} (c : coro A) : events c = (turn c).1 ++ events (turn c).2.
Proof.
  induction c as [r|ev k IH|k IH]; simpl; auto.
  destruct (turn k). simpl in *. by rewrite IH.
Qed.

Lemma drain_events {A} (pool : list (coro A)) (results : list A) :
  Forall2 (λ c a, value c = Ok a) pool results →
  (drain pool).1 = concat (events <$> pool).
Proof.
  induction 1 as [|c a pool results Hc _ IH]; simpl; [done|].
  rewrite Hc. destruct (drain pool) as [es r]. simpl in *. by rewrite IH.
Qed.

(** Every task runs once: the trace of the loop is an interleaving of the
    traces of the tasks. *)
Lemma loop_events {A} (sched : list nat) (pool : list (coro A))
    (results : list A) :
  Forall2 (λ c a, value c = Ok a) pool results →
  (loop sched pool).1 ≡ₚ concat (events <$> pool).
Proof.
  revert pool. induction sched as [|i sched IH]; intros pool Hpool; simpl.
  - by rewrite (drain_events _ _ Hpool).
  - destruct (pool !! i) as [c|] eqn:Hi; [|by apply IH].
    destruct (Forall2_lookup_l _ _ _ _ _ Hpool Hi) as (a & Ha & Hc).
    pose proof (value_turn c) as Ht. pose proof (events_turn c) as He.
    destruct (turn c) as [es c']. simpl in Ht, He.
    assert (Hc' : value c' = Ok a) by congruence.
    assert (Hpool' : Forall2 (λ c a, value c = Ok a) (<[i := c']> pool) results).
    { rewrite <- (list_insert_id results i a) by done.
      by apply Forall2_insert. }
    specialize (IH _ Hpool').
    assert (Hsplit : concat (events <$> pool)
                     ≡ₚ es ++ concat (events <$> <[i := c']> pool)).
    { rewrite <- (take_drop_middle pool i c) at 1 by done.
      rewrite insert_take_drop by (by eapply lookup_lt_Some).
      rewrite !fmap_app, !fmap_cons, !concat_app, !concat_cons, He.
      rewrite <- !app_assoc. by rewrite Permutation_app_swap_app. }
    destruct (finished c') as [[a'|e]|] eqn:Hf.
    + destruct (loop sched (<[i:=c']> pool)). simpl in *.
      by rewrite Hsplit, IH.
    + apply finished_value in Hf. congruence.
    + destruct (loop sched (<[i:=c']> pool)). simpl in *.
      by rewrite Hsplit, IH.
Qed.

Lemma events_gather {A} (sched : list nat) (tasks : list (coro A))
    (results : list A) :
  Forall2 (λ c a, value c = Ok a) tasks results →
  events (gather sched tasks) ≡ₚ concat (events <$> tasks).
Proof.
  intros H. unfold gather. pose proof (loop_events sched _ _ H) as Hl.
  destruct (loop sched tasks) as [es r]. simpl in *.
  by rewrite events_emit_all, app_nil_r.
Qed.

Lemma events_lift {A} (r : result A) : events (lift r) = [].
Proof. done. Qed.
Lemma events_await {A} (r : result A) : events (await r) = [].
Proof. done. Qed.
Lemma events_mret {A} (a : A) : events (mret a) = [].
Proof. done. Qed.
Lemma events_print line : events (print line) = [Print line].
Proof. done. Qed.
Lemma events_session_get s r : events (session_get s r) = [Get r].
Proof. done. Qed.
Lemma events_post w r : events (post w r) = [Post r].
Proof. done. Qed.

Create Rewrite HintDb trace.
#[local] Hint Rewrite @events_bind @events_lift @events_await @events_mret
  events_print events_session_get events_post
  @value_bind @value_lift @value_await @value_mret
  value_print value_session_get value_post : trace.

Lemma events_search_bing self w query :
  events (search_bing self w query) =
  Get (bing_request self query) ::
  match search_session w (bing_request self query) with
  | Ok resp =>
      if status resp =? 200 then []
      else [Print [Lit "Bing Search Error: "; Fmt (PyInt (status resp))]]
  | Raise _ => []
  end.
Proof.
  unfold search_bing.
  change (Request _ _ _ _ _) with (bing_request self query).
  autorewrite with trace. cbn [app]. f_equal.
  destruct (search_session w (bing_request self query)) as [resp|e]; [|done].
  destruct (status resp =? 200); [|by autorewrite with trace].
  autorewrite with trace. destruct (json resp) as [data|e]; [|done].
  autorewrite with trace.
  destruct (get data "webPages" (PyDict ∅)) as [wp|e]; [|done].
  autorewrite with trace.
  destruct (get wp "value" (PyList [])) as [entries|e]; [|done].
  autorewrite with trace.
  destruct (iterate entries) as [l|e]; [|done].
  cbn [app]. apply events_comprehension. intros x.
  autorewrite with trace. destruct (get x "url" (PyStr "")); [|done].
  autorewrite with trace. by destruct (get x "name" (PyStr "")).
Qed.

Lemma events_summarize_with_gemini self w text :
  events (summarize_with_gemini self w text) =
  Post (gemini_request self text) ::
  match requests_post w (gemini_request self text) with
  | Ok resp =>
      if status resp =? 200 then []
      else [Print [Lit "Gemini API Error: "; Fmt (PyInt (status resp))]]
  | Raise _ => []
  end.
Proof.
  unfold summarize_with_gemini.
  change (Request _ _ _ _ _) with (gemini_request self text).
  autorewrite with trace. cbn [app]. f_equal.
  destruct (requests_post w (gemini_request self text)) as [resp|e]; [|done].
  destruct (status resp =? 200); [|by autorewrite with trace].
  repeat (autorewrite with trace;
          match goal with
          | |- context [match ?r with Ok _ => _ | Raise _ => _ end] =>
              destruct r; [|done]
          end).
  done.
Qed.

Lemma value_summarize_with_gemini self w text :
  value (summarize_with_gemini self w text) =
  match requests_post w (gemini_request self text) with
  | Ok resp =>
      if status resp =? 200 then first_candidate_text resp
      else Ok (PyStr "")
  | Raise e => Raise e
  end.
Proof.
  unfold summarize_with_gemini, first_candidate_text.
  change (Request _ _ _ _ _) with (gemini_request self text).
  autorewrite with value.
  destruct (requests_post w (gemini_request self text)) as [resp|e];
    cbn [mbind result_mbind]; [|done].
  destruct (status resp =? 200); [|by autorewrite with value].
  repeat (autorewrite with value;
          match goal with
          | |- context [@mbind result _ _ _ _ ?r] =>
              destruct r; cbn [mbind result_mbind]; [|done]
          end).
  by autorewrite with value.
Qed.

Lemma requests_fetch_webpage_content w position url :
  requests (events (fetch_webpage_content w position url))
  = [Get (page_request url)].
Proof.
  unfold fetch_webpage_content.
  change (Request url _ _ _ _) with (page_request url).
  rewrite events_try_except. autorewrite with trace.
  destruct (page_session w position (page_request url)) as [resp|e];
    cbn [mbind result_mbind].
  - destruct (status resp =? 200).
    + autorewrite with trace.
      destruct (text resp) as [html|e]; cbn [mbind result_mbind].
      * autorewrite with trace.
        destruct (extract w html) as [t|e]; cbn [mbind result_mbind].
        -- by autorewrite with trace.
        -- rewrite is_Exception_true. by autorewrite with trace.
      * rewrite is_Exception_true. by autorewrite with trace.
    + by autorewrite with trace.
  - rewrite is_Exception_true. by autorewrite with trace.
Qed.

Lemma requests_app es1 es2 : requests (es1 ++ es2) = requests es1 ++ requests es2.
Proof. apply filter_app. Qed.

Lemma Forall2_imap_values {A B} (f : nat → A → coro B) (g : nat → A → B)
    (l : list A) :
  (∀ j x, value (f j x) = Ok (g j x)) →
  Forall2 (λ c a, value c = Ok a) (imap f l) (imap g l).
Proof.
  revert f g. induction l as [|x l IH]; intros f g Hfg; simpl; constructor;
    [apply Hfg|].
  apply IH. intros. apply Hfg.
Qed.

Lemma requests_parallel_webpage_scraping w search_results urls :
  Forall2 (λ result url, subscript result (KStr "url") = Ok url)
    search_results urls →
  requests (events (parallel_webpage_scraping w search_results))
  ≡ₚ (λ url, Get (page_request url)) <$> urls.
Proof.
  intros H. unfold parallel_webpage_scraping. autorewrite with trace.
  rewrite (fetch_tasks_value w 0 _ _ H). cbn [app].
  assert (Hv : Forall2 (λ c a, value c = Ok a)
                 (imap (λ j, fetch_webpage_content w (0 + j)) urls)
                 (imap (page_text w) urls)).
  { apply Forall2_imap_values. intros j u.
    apply value_fetch_webpage_content. }
  rewrite events_bind, (value_gather _ _ _ Hv). autorewrite with trace.
  rewrite app_nil_r. unfold requests.
  rewrite (events_gather _ _ _ Hv). clear.
  generalize 0%nat. induction urls as [|u urls IH]; intros i; [done|].
  cbn [imap fmap list_fmap concat]. rewrite filter_app.
  fold (requests (events (fetch_webpage_content w (i + 0) u))).
  rewrite requests_fetch_webpage_content. cbn [app]. apply Permutation_skip.
  rewrite (imap_ext _ (λ j, fetch_webpage_content w (S i + j))); [apply IH|].
  intros j x _. simpl. f_equal. lia.
Qed.

Lemma requests_search_bing self w query :
  requests (events (search_bing self w query)) = [Get (bing_request self query)].
Proof.
  rewrite events_search_bing.
  destruct (search_session w (bing_request self query)) as [resp|e]; [|done].
  by destruct (status resp =? 200).
Qed.

Lemma requests_summarize_with_gemini self w text :
  requests (events (summarize_with_gemini self w text))
  = [Post (gemini_request self text)].
Proof.
  rewrite events_summarize_with_gemini.
  destruct (requests_post w (gemini_request self text)) as [resp|e]; [|done].
  by destruct (status resp =? 200).
Qed.

(** ** The Summarizer *)

(** C8, on the code. The one request of the Summarizer carries the fixed
    instruction followed by the corpus, verbatim. The instruction asks for
    exactly 300 words and for key numbers and statistics; it does not ask for
    bullet points or tables. *)
Theorem summarize_with_gemini_instruction self w text :
  requests (events (summarize_with_gemini self w text))
  = [Post (gemini_request self text)] ∧
  (part ← (parts ← (content ← subscript (req_json (gemini_request self text))
                                (KStr "contents");
                    subscript content (KInt 0));
           ps ← subscript parts (KStr "parts"); subscript ps (KInt 0));
   subscript part (KStr "text"))
  = Ok (PyStr (instruction +:+ text)) ∧
  Text.contains "in exactly 300 words" instruction = true ∧
  Text.contains "key numbers, statistics" instruction = true ∧
  Text.contains "bullet" (Text.lower instruction) = false ∧
  Text.contains "table" (Text.lower instruction) = false.
Proof.
  split; [apply requests_summarize_with_gemini|]. split; [done|].
  by vm_compute.
Qed.

(** ** The Orchestrator *)

Lemma value_research_and_summarize (self : methods) query :
  value (research_and_summarize self query) =
  search_results ← value (call_search_bing self query);
  scraped_content ←
    value (call_parallel_webpage_scraping self search_results);
  value (call_summarize_with_gemini self scraped_content).
Proof.
  unfold research_and_summarize. autorewrite with value.
  destruct (value (call_search_bing self query)) as [rs|e];
    cbn [mbind result_mbind]; [|done].
  autorewrite with value.
  destruct (value (call_parallel_webpage_scraping self rs)) as [c|e];
    cbn [mbind result_mbind]; [|done].
  autorewrite with value.
  by destruct (value (call_summarize_with_gemini self c)).
Qed.

Lemma events_research_and_summarize (self : methods) query :
  events (research_and_summarize self query) =
  events (call_search_bing self query) ++
  match value (call_search_bing self query) with
  | Raise _ => []
  | Ok search_results =>
      events (call_parallel_webpage_scraping self search_results) ++
      match value (call_parallel_webpage_scraping self search_results) with
      | Raise _ => []
      | Ok scraped_content =>
          events (call_summarize_with_gemini self scraped_content)
      end
  end.
Proof.
  unfold research_and_summarize. rewrite events_bind. f_equal.
  destruct (value (call_search_bing self query)) as [rs|e]; [|done].
  rewrite events_bind. f_equal.
  destruct (value (call_parallel_webpage_scraping self rs)) as [c|e]; [|done].
  rewrite events_bind.
  destruct (value (call_summarize_with_gemini self c)); by rewrite app_nil_r.
Qed.

Lemma scenario_value w resp :
  page_session w 0 (page_request (PyStr "http://a")) = Ok resp →
  status resp = 200 →
  text resp = Ok hello_page →
  html_parser w hello_page = Ok [wrap ["html"; "body"] "Hello World"] →
  value (research_and_summarize (scenario w) "test") = Ok (PyStr "Hello World").
Proof.
  intros Hs H200 Ht Hp. rewrite value_research_and_summarize.
  cbn [scenario call_search_bing call_parallel_webpage_scraping
       call_summarize_with_gemini].
  rewrite value_mret. cbn [mbind result_mbind].
  rewrite (value_parallel_webpage_scraping _ _ [PyStr "http://a"])
    by (repeat constructor).
  cbn [mbind result_mbind imap]. unfold page_text. rewrite Hs, H200, Ht.
  cbn [Z.eqb Pos.eqb mbind result_mbind].
  rewrite (extract_parsed _ _ _ Hp). by vm_compute.
Qed.

(** C9. The Orchestrator returns the summary of the aggregate of the search:
    each stage is called once, in this order, on the value of the stage
    before, whatever that value is. In the end-to-end scenario (one result for
    ["http://a"], which serves [<html><body>Hello World</body></html>], the
    Summarizer echoing its input) it returns ["Hello World"]. With the methods
    of the class, one query issues one search request, one request per search
    result and one request to the summarizer. *)
Theorem research_and_summarize_composes (self : methods) query :
  value (research_and_summarize self query)
  = (search_results ← value (call_search_bing self query);
     scraped_content ←
       value (call_parallel_webpage_scraping self search_results);
     value (call_summarize_with_gemini self scraped_content)) ∧
  events (research_and_summarize self query)
  = events (call_search_bing self query) ++
    match value (call_search_bing self query) with
    | Raise _ => []
    | Ok search_results =>
        events (call_parallel_webpage_scraping self search_results) ++
        match value (call_parallel_webpage_scraping self search_results) with
        | Raise _ => []
        | Ok scraped_content =>
            events (call_summarize_with_gemini self scraped_content)
        end
    end ∧
  (∀ w resp,
     page_session w 0 (page_request (PyStr "http://a")) = Ok resp →
     status resp = 200 →
     text resp = Ok hello_page →
     html_parser w hello_page = Ok [wrap ["html"; "body"] "Hello World"] →
     value (research_and_summarize (scenario w) "test")
     = Ok (PyStr "Hello World")) ∧
  (∀ assistant w search_results,
     value (search_bing assistant w query) = Ok search_results →
     ∃ urls,
       Forall2 (λ result url, subscript result (KStr "url") = Ok url)
         search_results urls ∧
       requests (events (research_and_summarize (bound assistant w) query))
       ≡ₚ Get (bing_request assistant query)
          :: ((λ url, Get (page_request url)) <$> urls)
          ++ [Post (gemini_request assistant (corpus w urls))]).
Proof.
  split; [apply value_research_and_summarize|].
  split; [apply events_research_and_summarize|].
  split; [apply scenario_value|].
  intros assistant w rs Hrs.
  destruct (search_bing_results_have_url _ _ _ _ Hrs) as [urls Hurls].
  exists urls. split; [done|].
  rewrite events_research_and_summarize.
  cbn [bound call_search_bing call_parallel_webpage_scraping
       call_summarize_with_gemini].
  rewrite Hrs, (value_parallel_webpage_scraping _ _ _ Hurls).
  rewrite !requests_app, requests_search_bing,
    requests_summarize_with_gemini.
  by rewrite (requests_parallel_webpage_scraping _ _ _ Hurls).
Qed.

Lemma research_and_summarize_composes_witness :
  value (research_and_summarize (scenario hello_world) "test")
  = Ok (PyStr "Hello World").
Proof.
  destruct (research_and_summarize_composes (scenario hello_world) "test")
    as (_ & _ & H & _).
  apply (H hello_world
           (Response 200 (Raise (Exn ContentTypeError "")) (Ok hello_page)));
    reflexivity.
Defined.

(** ** Failures *)

(** C1, as stated, fails: a transport failure of the search or of the
    summarizer, and a malformed response to either, is raised to the caller,
    and through the Orchestrator. *)
Lemma failures_escape :
  search_failure (search_session offline (bing_request (init offline) "test"))
    = Some TransportFailure ∧
  value (search_bing (init offline) offline "test")
    = Raise (Exn ClientError "Cannot connect to host") ∧
  summary_failure (requests_post offline (gemini_request (init offline) ""))
    = Some TransportFailure ∧
  value (summarize_with_gemini (init offline) offline "")
    = Raise (Exn RequestException "Connection refused") ∧
  (run_query offline "test").2
    = Raise (Exn ClientError "Cannot connect to host") ∧
  search_failure
    (search_session malformed_world
       (bing_request (init malformed_world) "test"))
    = Some MalformedResponse ∧
  value (search_bing (init malformed_world) malformed_world "test")
    = Raise (Exn AttributeError "'NoneType' object has no attribute 'get'") ∧
  summary_failure
    (requests_post malformed_world (gemini_request (init malformed_world) ""))
    = Some MalformedResponse ∧
  value (summarize_with_gemini (init malformed_world) malformed_world "")
    = Raise (Exn KeyError "'candidates'").
Proof. repeat split; by vm_compute. Qed.

Lemma search_failure_status o :
  search_failure o = Some NonSuccessStatus →
  ∃ resp, o = Ok resp ∧ (status resp =? 200) = false.
Proof.
  destruct o as [resp|e]; [|done]. simpl.
  destruct (status resp =? 200) eqn:Hs; [|by eauto].
  by destruct (listed resp ≫= mapM result_of_entry).
Qed.

Lemma summary_failure_status o :
  summary_failure o = Some NonSuccessStatus →
  ∃ resp, o = Ok resp ∧ (status resp =? 200) = false.
Proof.
  destruct o as [resp|e]; [|done]. simpl.
  destruct (status resp =? 200) eqn:Hs; [|by eauto].
  by destruct (first_candidate_text resp).
Qed.

Lemma fetch_failure_empty w position url f :
  fetch_failure w (page_session w position (page_request url)) = Some f →
  page_text w position url = "".
Proof.
  unfold fetch_failure, page_text.
  destruct (page_session w position (page_request url)) as [resp|e]; [|done].
  destruct (status resp =? 200); [|done].
  by destruct (text resp ≫= extract w).
Qed.

(** C1, amended. A status other than success is turned into an empty value,
    with a line on the console, by the Search Client (empty list) and by the
    Summarizer (empty string). The Page Fetcher turns every failure of the
    three kinds into the empty string, so the Aggregator never raises on
    SearchResults. In the Orchestrator a search that failed by its status
    flows forward as the empty corpus, and a summarizer that failed by its
    status gives the empty summary; an exception out of the Orchestrator is
    an exception of the Search Client or of the Summarizer, never of a page.
    A failure of another kind in the Search Client or in the Summarizer is
    raised to the caller. *)
Theorem failures_degrade self w query text position url :
  (search_failure (search_session w (bing_request self query))
     = Some NonSuccessStatus →
   value (search_bing self w query) = Ok [] ∧
   ∃ line, events (search_bing self w query)
           = [Get (bing_request self query); Print line]) ∧
  (∀ f, fetch_failure w (page_session w position (page_request url)) = Some f →
        value (fetch_webpage_content w position url) = Ok "") ∧
  (∀ search_results urls,
     Forall2 (λ result url, subscript result (KStr "url") = Ok url)
       search_results urls →
     ∃ scraped_content,
       value (parallel_webpage_scraping w search_results) = Ok scraped_content) ∧
  (summary_failure (requests_post w (gemini_request self text))
     = Some NonSuccessStatus →
   value (summarize_with_gemini self w text) = Ok (PyStr "") ∧
   ∃ line, events (summarize_with_gemini self w text)
           = [Post (gemini_request self text); Print line]) ∧
  (search_failure (search_session w (bing_request self query))
     = Some NonSuccessStatus →
   value (research_and_summarize (bound self w) query)
   = value (summarize_with_gemini self w "")) ∧
  (∀ search_results scraped_content,
     value (search_bing self w query) = Ok search_results →
     value (parallel_webpage_scraping w search_results) = Ok scraped_content →
     summary_failure (requests_post w (gemini_request self scraped_content))
       = Some NonSuccessStatus →
     value (research_and_summarize (bound self w) query) = Ok (PyStr "")) ∧
  (∀ e,
     value (research_and_summarize (bound self w) query) = Raise e →
     value (search_bing self w query) = Raise e ∨
     ∃ scraped_content,
       value (summarize_with_gemini self w scraped_content) = Raise e) ∧
  (∀ f, search_failure (search_session w (bing_request self query)) = Some f →
        f ≠ NonSuccessStatus →
        ∃ e, value (search_bing self w query) = Raise e) ∧
  (∀ f, summary_failure (requests_post w (gemini_request self text)) = Some f →
        f ≠ NonSuccessStatus →
        ∃ e, value (summarize_with_gemini self w text) = Raise e).
Proof.
  assert (Hsearch : search_failure (search_session w (bing_request self query))
                      = Some NonSuccessStatus →
                    value (search_bing self w query) = Ok []).
  { intros (resp & Hr & Hs)%search_failure_status.
    by rewrite value_search_bing, Hr, Hs. }
  assert (Hsummary : ∀ t,
            summary_failure (requests_post w (gemini_request self t))
              = Some NonSuccessStatus →
            value (summarize_with_gemini self w t) = Ok (PyStr "")).
  { intros t (resp & Hr & Hs)%summary_failure_status.
    by rewrite value_summarize_with_gemini, Hr, Hs. }
  repeat apply conj.
  - intros Hf. split; [by apply Hsearch|].
    apply search_failure_status in Hf as (resp & Hr & Hs).
    rewrite events_search_bing, Hr, Hs. by eexists.
  - intros f Hf. rewrite value_fetch_webpage_content.
    by rewrite (fetch_failure_empty _ _ _ _ Hf).
  - intros rs urls Hurls.
    rewrite (value_parallel_webpage_scraping _ _ _ Hurls). by eexists.
  - intros Hf. split; [by apply Hsummary|].
    apply summary_failure_status in Hf as (resp & Hr & Hs).
    rewrite events_summarize_with_gemini, Hr, Hs. by eexists.
  - intros Hf. rewrite value_research_and_summarize.
    cbn [bound call_search_bing call_parallel_webpage_scraping
         call_summarize_with_gemini].
    rewrite (Hsearch Hf). cbn [mbind result_mbind].
    by rewrite (value_parallel_webpage_scraping _ [] []) by constructor.
  - intros rs c Hrs Hc Hf. rewrite value_research_and_summarize.
    cbn [bound call_search_bing call_parallel_webpage_scraping
         call_summarize_with_gemini].
    rewrite Hrs. cbn [mbind result_mbind]. rewrite Hc.
    cbn [mbind result_mbind]. by apply Hsummary.
  - intros e. rewrite value_research_and_summarize.
    cbn [bound call_search_bing call_parallel_webpage_scraping
         call_summarize_with_gemini].
    destruct (value (search_bing self w query)) as [rs|e'] eqn:Hrs;
      cbn [mbind result_mbind]; [|intros [= ->]; by left].
    destruct (search_bing_results_have_url _ _ _ _ Hrs) as [urls Hurls].
    rewrite (value_parallel_webpage_scraping _ _ _ Hurls).
    cbn [mbind result_mbind]. intros He. right. by eexists.
  - intros f Hf Hne. rewrite value_search_bing. unfold search_failure in Hf.
    destruct (search_session w (bing_request self query)) as [resp|e];
      [|by eexists].
    destruct (status resp =? 200); [|congruence].
    destruct (listed resp ≫= mapM result_of_entry) as [rs|e]; [done|].
    by eexists.
  - intros f Hf Hne. rewrite value_summarize_with_gemini.
    unfold summary_failure in Hf.
    destruct (requests_post w (gemini_request self text)) as [resp|e];
      [|by eexists].
    destruct (status resp =? 200); [|congruence].
    destruct (first_candidate_text resp) as [v|e]; [done|]. by eexists.
Qed.

Lemma failures_degrade_witness :
  value (search_bing (init unavailable_world) unavailable_world "test") = Ok [] ∧
  value (fetch_webpage_content unavailable_world 0 (PyStr "http://a")) = Ok "" ∧
  value (summarize_with_gemini (init unavailable_world) unavailable_world "")
    = Ok (PyStr "") ∧
  value (research_and_summarize
           (bound (init unavailable_world) unavailable_world) "test")
    = Ok (PyStr "").
Proof.
  destruct (failures_degrade (init unavailable_world) unavailable_world
              "test" "" 0 (PyStr "http://a"))
    as (Hsearch & Hfetch & _ & Hsummary & _ & Hall & _).
  split; [by apply Hsearch|].
  split; [apply (Hfetch NonSuccessStatus); reflexivity|].
  split; [by apply Hsummary|].
  apply (Hall [] ""); reflexivity.
Defined.

(** ** Further properties of the text the page fetch returns *)

Lemma single_spaced_app s r :
  single_spaced s = true → single_spaced (s +:+ r) = single_spaced r.
Proof.
  induction s as [|c s IH]; [done|]. simpl.
  intros [Hc Hs]%andb_prop. rewrite (IH Hs).
  destruct (Text.isspace c); [|done].
  apply andb_prop in Hc as [-> Hn]. destruct s as [|c' s]; [done|].
  simpl. by rewrite Hn.
Qed.

Lemma normalized_starts_word s :
  normalized s = true → Text.nonempty s = true → starts_word s = true.
Proof.
  destruct s as [|c s]; [done|]. unfold normalized.
  by intros [_ ?]%andb_prop _.
Qed.

Lemma join_nonempty_starts_word ts :
  Forall (λ t, starts_word t = true) ts → ts ≠ [] →
  starts_word (Text.join " " ts) = true.
Proof.
  intros [|t ts' Ht _]; [done|]. intros _.
  destruct t as [|c t]; [done|]. by destruct ts'.
Qed.

Lemma normalized_join ts :
  Forall (λ t, normalized t = true ∧ Text.nonempty t = true) ts →
  normalized (Text.join " " ts) = true.
Proof.
  intros H.
  assert (Hstart : Forall (λ t, starts_word t = true) ts).
  { eapply Forall_impl; [exact H|]. intros t [??].
    by apply normalized_starts_word. }
  induction H as [|t ts [Hn Hne] Hts IH]; [done|].
  apply Forall_cons in Hstart as [Ht Hstart].
  destruct ts as [|t' ts]; [done|].
  rewrite join_cons. specialize (IH Hstart).
  pose proof (join_nonempty_starts_word (t' :: ts) Hstart) as Hj.
  unfold normalized in *. apply andb_prop in Hn as [Hs Hh].
  apply andb_prop in IH as [IHs _].
  rewrite single_spaced_app by done.
  destruct (Text.join " " (t' :: ts)) as [|c x]; [by discriminate Hj|].
  change (" " +:+ ?y) with (String " " y). cbn [single_spaced].
  change (Text.isspace " ") with true. cbn iota.
  cbn [single_spaced] in IHs. rewrite IHs. simpl in Hj. rewrite Hj by done.
  destruct t as [|c' t]; [done|]. done.
Qed.

Lemma normalized_page_text w position url :
  normalized (page_text w position url) = true.
Proof.
  unfold page_text.
  destruct (page_session w position (page_request url)) as [resp|e]; [|done].
  destruct (status resp =? 200); [|done].
  destruct (text resp) as [html|e]; [|done]. cbn [mbind result_mbind].
  unfold extract. destruct (BeautifulSoup w html) as [soup|e]; [|done].
  cbn [mbind result_mbind mret result_ret]. unfold extract_text.
  rewrite join_split_collapse. apply normalized_collapse.
Qed.

Lemma split_from_app_space s r :
  Text.split_from (s +:+ String " " r)
  = ((Text.split_from s).1, (Text.split_from s).2 ++ Text.split r).
Proof.
  induction s as [|c s IH].
  - change (EmptyString +:+ String " " r) with (String " " r).
    by rewrite split_from_space.
  - change (String c s +:+ String " " r) with (String c (s +:+ String " " r)).
    destruct (Text.isspace c) eqn:Hc.
    + rewrite !(split_from_space c) by done. cbn [fst snd]. f_equal.
      unfold Text.split. rewrite IH.
      by destruct (Text.split_from s) as [[|c' w] ws].
    + rewrite !(split_from_char c) by done. by rewrite IH.
Qed.

Lemma split_app_space s r :
  Text.split (s +:+ String " " r) = Text.split s ++ Text.split r.
Proof.
  unfold Text.split at 1 2. rewrite split_from_app_space.
  by destruct (Text.split_from s) as [[|c' w] ws].
Qed.

(** Splitting a join: the words of the pieces, in order. *)
Lemma split_join ts :
  Text.split (Text.join " " ts) = List.flat_map Text.split ts.
Proof.
  induction ts as [|t ts IH]; [done|]. destruct ts as [|t' ts].
  - simpl. by rewrite app_nil_r.
  - rewrite join_cons. change (" " +:+ ?y) with (String " " y).
    by rewrite split_app_space, IH.
Qed.

Lemma split_from_solid w :
  solid w = true → Text.split_from w = (w, []).
Proof.
  induction w as [|c w IH]; [done|]. simpl.
  intros [->%negb_true_iff Hw]%andb_prop. by rewrite (IH Hw).
Qed.

Lemma split_word w :
  starts_word w = true → solid w = true → Text.split w = [w].
Proof.
  intros Hs Hw. unfold Text.split. rewrite split_from_solid by done.
  by destruct w.
Qed.

Lemma split_join_words ws :
  Forall (λ w, starts_word w = true ∧ solid w = true) ws →
  Text.split (Text.join " " ws) = ws.
Proof.
  intros H. rewrite split_join.
  induction H as [|w ws [Hs Hw] _ IH]; [done|].
  cbn [List.flat_map]. by rewrite split_word, IH.
Qed.

Lemma split_collapse s : Text.split (collapse s) = Text.split s.
Proof.
  rewrite <- join_split_collapse. apply split_join_words, split_words.
Qed.

Lemma flat_map_visible_app names ms1 ms2 :
  List.flat_map (visible names) (ms1 ++ ms2)
  = List.flat_map (visible names) ms1 ++ List.flat_map (visible names) ms2.
Proof. apply flat_map_app. Qed.

Lemma strip_normalized s : normalized s = true → Text.strip s = s.
Proof.
  unfold normalized, Text.strip. intros [Hs Hh]%andb_prop.
  rewrite rstrip_single_spaced by done.
  destruct s as [|c s]; [done|]. by apply lstrip_word.
Qed.

(** X1. Whatever the page, what the page fetch returns is normalized text: no
    whitespace at either end, no whitespace but single spaces between words.
    Cleaning it again, or stripping it, changes nothing. *)
Theorem fetch_webpage_content_normalized w position url :
  ∃ t,
    value (fetch_webpage_content w position url) = Ok t ∧
    normalized t = true ∧
    Text.join " " (Text.split t) = t ∧
    Text.strip t = t.
Proof.
  exists (page_text w position url).
  pose proof (normalized_page_text w position url) as Hn.
  split; [apply value_fetch_webpage_content|]. split; [done|]. split.
  - rewrite join_split_collapse. by apply collapse_normalized.
  - by apply strip_normalized.
Qed.

(** X2. The extractor neither adds, drops nor reorders a word: the words of
    the text it returns are the words of the strings that lie outside the
    removed tags, in document order. *)
Theorem extract_text_words ms :
  Text.split (extract_text (Soup.soup_of ms))
  = List.flat_map Text.split (List.flat_map (visible removed_tags) ms).
Proof. by rewrite extract_text_visible, split_collapse, split_join. Qed.

(** X3. At the top of a document, the text of two pieces side by side is
    the words of the one followed by the words of the other; a tag that is not
    removed is transparent (the text is that of its contents in its place);
    a removed tag is as if it were absent. *)
Theorem extract_text_composes before name inner after :
  Text.split (extract_text (Soup.soup_of (before ++ after)))
  = Text.split (extract_text (Soup.soup_of before))
    ++ Text.split (extract_text (Soup.soup_of after)) ∧
  (name ∉ removed_tags →
   extract_text (Soup.soup_of (before ++ Soup.MElement name inner :: after))
   = extract_text (Soup.soup_of (before ++ inner ++ after))) ∧
  (name ∈ removed_tags →
   extract_text (Soup.soup_of (before ++ Soup.MElement name inner :: after))
   = extract_text (Soup.soup_of (before ++ after))).
Proof.
  split; [|split].
  - rewrite !extract_text_words, flat_map_visible_app. apply flat_map_app.
  - intros Hn. rewrite !extract_text_visible. do 2 f_equal.
    rewrite !flat_map_visible_app. cbn [List.flat_map visible].
    by rewrite bool_decide_eq_false_2.
  - intros Hn. rewrite !extract_text_visible. do 2 f_equal.
    rewrite !flat_map_visible_app. cbn [List.flat_map visible].
    by rewrite bool_decide_eq_true_2.
Qed.

Lemma extract_text_composes_witness :
  extract_text (Soup.soup_of
    [Soup.MElement "div" [Soup.MString Soup.NavigableString "a  b"];
     Soup.MElement "footer" [Soup.MString Soup.NavigableString "c"]])
  = "a b".
Proof.
  destruct (extract_text_composes
              [Soup.MElement "div" [Soup.MString Soup.NavigableString "a  b"]]
              "footer" [Soup.MString Soup.NavigableString "c"] [])
    as (_ & _ & Hremoved).
  etransitivity.
  { apply Hremoved. apply (bool_decide_unpack _). vm_compute. exact I. }
  destruct (extract_text_composes [] "div"
              [Soup.MString Soup.NavigableString "a  b"] [])
    as (_ & Hkept & _).
  etransitivity.
  { apply Hkept. apply (bool_decide_unpack _). vm_compute. exact I. }
  reflexivity.
Defined.

(** X4. On SearchResults the Aggregator returns a normalized corpus: the
    page texts are normalized, the empty ones are left out, and the others are
    joined by single spaces. Splitting the corpus gives back the words of the
    pages, in order. *)
Theorem parallel_webpage_scraping_normalized w search_results urls :
  Forall2 (λ result url, subscript result (KStr "url") = Ok url)
    search_results urls →
  ∃ scraped_content,
    value (parallel_webpage_scraping w search_results) = Ok scraped_content ∧
    normalized scraped_content = true ∧
    Text.split scraped_content
    = List.flat_map Text.split (imap (page_text w) urls).
Proof.
  intros H. eexists. split; [by apply value_parallel_webpage_scraping|]. split.
  - apply normalized_join, Forall_forall.
    intros t [Hne (i & u & -> & _)%elem_of_lookup_imap]%list_elem_of_filter.
    split; [apply normalized_page_text|done].
  - rewrite split_join. generalize (imap (page_text w) urls). clear.
    induction l as [|t ts IH]; [done|].
    destruct t as [|c t].
    + by rewrite filter_cons_False.
    + rewrite filter_cons_True by done. cbn [List.flat_map]. by rewrite IH.
Qed.

Lemma parallel_webpage_scraping_normalized_witness :
  ∃ scraped_content,
    value (parallel_webpage_scraping three_pages_world three_results)
      = Ok scraped_content ∧
    Text.split scraped_content = ["first"; "page"; "third"; "page"].
Proof.
  destruct (parallel_webpage_scraping_normalized three_pages_world
              three_results
              [PyStr "http://a"; PyStr "http://b"; PyStr "http://c"])
    as (c & Hv & _ & Hs).
  - repeat constructor.
  - exists c. split; [exact Hv|]. rewrite Hs. vm_compute. reflexivity.
Defined.

(** ** Further properties of the Search Client and of the Aggregator *)

Lemma mapM_first_error {A B} (f : A → result B) (good : list A) bad rest e :
  Forall (λ x, ∃ y, f x = Ok y) good → f bad = Raise e →
  mapM f (good ++ bad :: rest) = Raise e.
Proof.
  intros Hgood Hbad. induction Hgood as [|x good [y Hy] _ IH]; simpl.
  - by rewrite Hbad.
  - by rewrite Hy, IH.
Qed.

(** X5. One entry of the response that is not a JSON object loses the whole
    search: the entries before it are well-formed, yet no result is returned
    and [AttributeError] is raised for the first value that has no [get]. *)
Theorem search_bing_malformed_entry self w query resp
    (body webPages : gmap string pyval) (good : list pyval) bad rest :
  search_session w (bing_request self query) = Ok resp →
  status resp = 200 →
  json resp = Ok (PyDict body) →
  body !! "webPages" = Some (PyDict webPages) →
  webPages !! "value" = Some (PyList (good ++ bad :: rest)) →
  Forall (λ entry, ∃ fields, entry = PyDict fields) good →
  (∀ fields, bad ≠ PyDict fields) →
  value (search_bing self w query)
  = Raise (Exn AttributeError
             ("'" +:+ type_name bad +:+ "' object has no attribute 'get'")).
Proof.
  intros Hs H200 Hj Hw Hv Hgood Hbad.
  rewrite value_search_bing, Hs, H200. cbn [Z.eqb Pos.eqb].
  rewrite (listed_value _ _ _ _ Hj Hw Hv). cbn [mbind result_mbind].
  apply mapM_first_error.
  - eapply Forall_impl; [exact Hgood|]. intros ? [fields ->].
    rewrite result_of_entry_object. by eexists.
  - destruct bad; try done. by destruct (Hbad d).
Qed.

Lemma search_bing_malformed_entry_witness :
  value (search_bing (init offline)
           (searching offline
              (Ok (Response 200 (Ok (listing [one_entry; PyStr "http://b"]))
                     (Ok ""))))
           "test")
  = Raise (Exn AttributeError "'str' object has no attribute 'get'").
Proof.
  apply (search_bing_malformed_entry _ _ _
           (Response 200 (Ok (listing [one_entry; PyStr "http://b"])) (Ok ""))
           {[ "webPages" :=
                PyDict {[ "value" := PyList [one_entry; PyStr "http://b"] ]} ]}
           {[ "value" := PyList [one_entry; PyStr "http://b"] ]}
           [one_entry] (PyStr "http://b") []).
  - reflexivity.
  - reflexivity.
  - reflexivity.
  - reflexivity.
  - reflexivity.
  - repeat constructor. by eexists.
  - intros fields. discriminate.
Defined.

Lemma fetch_tasks_error w i good urls bad rest e :
  Forall2 (λ result url, subscript result (KStr "url") = Ok url) good urls →
  subscript bad (KStr "url") = Raise e →
  fetch_tasks w i (good ++ bad :: rest) = Raise e.
Proof.
  intros Hgood Hbad. revert i.
  induction Hgood as [|r u rs us Hu _ IH]; intros i; simpl.
  - by rewrite Hbad.
  - rewrite Hu. cbn [mbind result_mbind]. by rewrite IH.
Qed.

(** X6. A search result without a [url] stops the Aggregator before any page
    is requested: the exception of the first such result is raised and
    nothing goes out on the network or to the console. *)
Theorem parallel_webpage_scraping_missing_url w good urls bad rest e :
  Forall2 (λ result url, subscript result (KStr "url") = Ok url) good urls →
  subscript bad (KStr "url") = Raise e →
  value (parallel_webpage_scraping w (good ++ bad :: rest)) = Raise e ∧
  events (parallel_webpage_scraping w (good ++ bad :: rest)) = [].
Proof.
  intros Hgood Hbad. unfold parallel_webpage_scraping.
  rewrite value_bind, events_bind, value_lift, events_lift.
  by rewrite (fetch_tasks_error _ _ _ _ _ _ _ Hgood Hbad).
Qed.

Lemma parallel_webpage_scraping_missing_url_witness :
  value (parallel_webpage_scraping hello_world
           [SearchResult (PyStr "http://a") (PyStr "A");
            PyDict {[ "title" := PyStr "B" ]}])
    = Raise (Exn KeyError "'url'") ∧
  events (parallel_webpage_scraping hello_world
            [SearchResult (PyStr "http://a") (PyStr "A");
             PyDict {[ "title" := PyStr "B" ]}]) = [].
Proof.
  apply (parallel_webpage_scraping_missing_url hello_world
           [SearchResult (PyStr "http://a") (PyStr "A")] [PyStr "http://a"]
           (PyDict {[ "title" := PyStr "B" ]}) []).
  - repeat constructor.
  - reflexivity.
Defined.

(** X7. The trace of one page fetch: one request, with a timeout of 10 and
    nothing else set; then, on success, the line ["text is"] and the whole
    text of the page; on a status other than 200, one line with the URL and
    the status; on an exception, one line with the URL and the exception. *)
Theorem fetch_webpage_content_trace w position url :
  events (fetch_webpage_content w position url) =
  Get (Request url PyNone PyNone PyNone (PyInt 10)) ::
  match page_session w position (page_request url) with
  | Raise e => [Print [Lit "Error fetching "; Fmt url; Lit ": "; FmtExn e]]
  | Ok resp =>
      if status resp =? 200 then
        match text resp ≫= extract w with
        | Ok t => [Print [Lit "text is"]; Print [Fmt (PyStr t)]]
        | Raise e =>
            [Print [Lit "Error fetching "; Fmt url; Lit ": "; FmtExn e]]
        end
      else [Print [Lit "Failed to fetch "; Fmt url; Lit ": ";
                   Fmt (PyInt (status resp))]]
  end.
Proof.
  unfold fetch_webpage_content.
  change (Request url _ _ _ _) with (page_request url).
  rewrite events_try_except. autorewrite with trace. cbn [app]. f_equal.
  destruct (page_session w position (page_request url)) as [resp|e];
    cbn [mbind result_mbind].
  - destruct (status resp =? 200).
    + autorewrite with trace.
      destruct (text resp) as [html|e]; cbn [mbind result_mbind].
      * autorewrite with trace.
        destruct (extract w html) as [t|e]; cbn [mbind result_mbind].
        -- by autorewrite with trace.
        -- rewrite is_Exception_true. by autorewrite with trace.
      * rewrite is_Exception_true. by autorewrite with trace.
    + by autorewrite with trace.
  - rewrite is_Exception_true. by autorewrite with trace.
Qed.

(** ** Further properties of the Summarizer *)

Lemma subscript_first x (l : list pyval) :
  subscript (PyList (x :: l)) (KInt 0) = Ok x.
Proof. done. Qed.

Lemma subscript_field (d : gmap string pyval) key x :
  d !! key = Some x → subscript (PyDict d) (KStr key) = Ok x.
Proof. intros H. cbn [subscript]. by rewrite H. Qed.

(** X8. Of a status-200 answer the Summarizer returns the [text] of the first
    part of the first candidate, whatever that value is and whatever other
    candidates and parts the answer holds. *)
Theorem summarize_with_gemini_first_candidate self w text resp
    (body candidate content part : gmap string pyval)
    (candidates parts : list pyval) (summary : pyval) :
  requests_post w (gemini_request self text) = Ok resp →
  status resp = 200 →
  json resp = Ok (PyDict body) →
  body !! "candidates" = Some (PyList (PyDict candidate :: candidates)) →
  candidate !! "content" = Some (PyDict content) →
  content !! "parts" = Some (PyList (PyDict part :: parts)) →
  part !! "text" = Some summary →
  value (summarize_with_gemini self w text) = Ok summary.
Proof.
  intros Hr H200 Hj Hc Hco Hp Ht.
  rewrite value_summarize_with_gemini, Hr, H200. cbn [Z.eqb Pos.eqb].
  unfold first_candidate_text. rewrite Hj. cbn [mbind result_mbind].
  rewrite (subscript_field _ _ _ Hc). cbn [mbind result_mbind].
  rewrite subscript_first. cbn [mbind result_mbind].
  rewrite (subscript_field _ _ _ Hco). cbn [mbind result_mbind].
  rewrite (subscript_field _ _ _ Hp). cbn [mbind result_mbind].
  rewrite subscript_first. cbn [mbind result_mbind].
  by apply subscript_field.
Qed.

Lemma summarize_with_gemini_first_candidate_witness :
  value (summarize_with_gemini (init offline)
           (answering offline (Ok (summary_response (PyStr "Short."))))
           "Hello World")
  = Ok (PyStr "Short.").
Proof.
  apply (summarize_with_gemini_first_candidate _ _ _
           (summary_response (PyStr "Short."))
           {[ "candidates" :=
                PyList [PyDict {[ "content" :=
                  PyDict {[ "parts" :=
                    PyList [PyDict {[ "text" := PyStr "Short." ]}] ]} ]}] ]}
           {[ "content" :=
                PyDict {[ "parts" :=
                  PyList [PyDict {[ "text" := PyStr "Short." ]}] ]} ]}
           {[ "parts" := PyList [PyDict {[ "text" := PyStr "Short." ]}] ]}
           {[ "text" := PyStr "Short." ]} [] []); reflexivity.
Defined.

(** X9. A status-200 answer without candidates is not turned into an empty
    summary: with no ["candidates"] key the Summarizer raises [KeyError], with
    an empty list of candidates it raises [IndexError]. *)
Theorem summarize_with_gemini_no_candidate self w text resp
    (body : gmap string pyval) :
  requests_post w (gemini_request self text) = Ok resp →
  status resp = 200 →
  json resp = Ok (PyDict body) →
  (body !! "candidates" = None →
   value (summarize_with_gemini self w text)
   = Raise (Exn KeyError "'candidates'")) ∧
  (body !! "candidates" = Some (PyList []) →
   value (summarize_with_gemini self w text)
   = Raise (Exn IndexError "list index out of range")).
Proof.
  intros Hr H200 Hj.
  rewrite value_summarize_with_gemini, Hr, H200. cbn [Z.eqb Pos.eqb].
  unfold first_candidate_text. rewrite Hj.
  cbn [mbind result_mbind subscript].
  split; by intros ->.
Qed.

Lemma summarize_with_gemini_no_candidate_witness :
  value (summarize_with_gemini (init offline)
           (answering offline
              (Ok (Response 200
                     (Ok (PyDict {[ "candidates" := PyList [] ]})) (Ok ""))))
           "Hello World")
  = Raise (Exn IndexError "list index out of range").
Proof.
  destruct (summarize_with_gemini_no_candidate (init offline)
              (answering offline
                 (Ok (Response 200
                        (Ok (PyDict {[ "candidates" := PyList [] ]}))
                        (Ok ""))))
              "Hello World"
              (Response 200 (Ok (PyDict {[ "candidates" := PyList [] ]}))
                 (Ok ""))
              {[ "candidates" := PyList [] ]}) as [_ H].
  - reflexivity.
  - reflexivity.
  - reflexivity.
  - apply H. reflexivity.
Defined.

(** ** Further properties of the Orchestrator *)

(** X10. A search without results does not end the query early: the
    Summarizer is still called, with the bare instruction, and its answer is
    the answer of the query. Two requests go out, one to each service. *)
Theorem research_and_summarize_empty_search self w query :
  value (search_bing self w query) = Ok [] →
  value (research_and_summarize (bound self w) query)
  = value (summarize_with_gemini self w "") ∧
  requests (events (research_and_summarize (bound self w) query))
  = [Get (bing_request self query); Post (gemini_request self "")] ∧
  req_json (gemini_request self "")
  = PyDict {[ "contents" :=
      PyList [PyDict {[ "parts" :=
        PyList [PyDict {[ "text" := PyStr instruction ]}] ]}] ]}.
Proof.
  intros Hs.
  assert (Hp : value (parallel_webpage_scraping w []) = Ok "")
    by (by rewrite (value_parallel_webpage_scraping _ [] []) by constructor).
  split; [|split].
  - rewrite value_research_and_summarize.
    cbn [bound call_search_bing call_parallel_webpage_scraping
         call_summarize_with_gemini].
    rewrite Hs. cbn [mbind result_mbind]. by rewrite Hp.
  - rewrite events_research_and_summarize.
    cbn [bound call_search_bing call_parallel_webpage_scraping
         call_summarize_with_gemini].
    rewrite Hs, Hp, !requests_app, requests_search_bing,
      requests_summarize_with_gemini.
    pose proof (requests_parallel_webpage_scraping w [] []
                  ltac:(constructor)) as Hq.
    apply Permutation_nil_r in Hq. by rewrite Hq.
  - by vm_compute.
Qed.

Lemma research_and_summarize_empty_search_witness :
  value (research_and_summarize
           (bound (init unavailable_world) unavailable_world) "test")
  = Ok (PyStr "").
Proof.
  destruct (research_and_summarize_empty_search (init unavailable_world)
              unavailable_world "test") as (H & _).
  - reflexivity.
  - rewrite H. reflexivity.
Defined.

(** X11. When the search raises, the query ends there: the exception is the
    outcome of the query, no page is requested and the Summarizer is not
    called. *)
Theorem research_and_summarize_search_raises self w query e :
  value (search_bing self w query) = Raise e →
  value (research_and_summarize (bound self w) query) = Raise e ∧
  events (research_and_summarize (bound self w) query)
  = events (search_bing self w query) ∧
  requests (events (research_and_summarize (bound self w) query))
  = [Get (bing_request self query)].
Proof.
  intros Hs.
  assert (He : events (research_and_summarize (bound self w) query)
               = events (search_bing self w query)).
  { rewrite events_research_and_summarize.
    cbn [bound call_search_bing]. by rewrite Hs, app_nil_r. }
  split; [|split; [done|]].
  - rewrite value_research_and_summarize. cbn [bound call_search_bing].
    by rewrite Hs.
  - by rewrite He, requests_search_bing.
Qed.

Lemma research_and_summarize_search_raises_witness :
  value (research_and_summarize (bound (init offline) offline) "test")
    = Raise (Exn ClientError "Cannot connect to host") ∧
  requests (events (research_and_summarize (bound (init offline) offline)
                      "test"))
    = [Get (bing_request (init offline) "test")].
Proof.
  destruct (research_and_summarize_search_raises (init offline) offline "test"
              (Exn ClientError "Cannot connect to host"))
    as (Hv & _ & Hr).
  - reflexivity.
  - split; [exact Hv|exact Hr].
Defined.

Lemma research_requests self w query :
  ∃ reqs,
    requests (events (research_and_summarize (bound self w) query))
    ≡ₚ Get (bing_request self query) :: reqs ∧
    Forall (λ ev, (∃ url, ev = Get (page_request url)) ∨
                  (∃ text, ev = Post (gemini_request self text))) reqs.
Proof.
  rewrite events_research_and_summarize.
  cbn [bound call_search_bing call_parallel_webpage_scraping
       call_summarize_with_gemini].
  destruct (value (search_bing self w query)) as [rs|e] eqn:Hrs.
  - destruct (search_bing_results_have_url _ _ _ _ Hrs) as [urls Hurls].
    rewrite (value_parallel_webpage_scraping _ _ _ Hurls).
    rewrite !requests_app, requests_search_bing,
      requests_summarize_with_gemini.
    exists (((λ url, Get (page_request url)) <$> urls)
            ++ [Post (gemini_request self (corpus w urls))]).
    split; [by rewrite (requests_parallel_webpage_scraping _ _ _ Hurls)|].
    apply Forall_app. split.
    + apply Forall_fmap, Forall_forall. intros url _. left. by eexists.
    + constructor; [|constructor]. right. by eexists.
  - rewrite app_nil_r, requests_search_bing. by exists [].
Qed.

(** X12. The keys stay with their services. Every GET of a query is either
    the search request or a page request, and a page request carries the URL
    and a timeout of 10 and nothing else: no header, no parameter, no body.
    Every POST is the request to the summarisation service. *)
Theorem keys_stay_with_their_service self w query r :
  (Get r ∈ events (research_and_summarize (bound self w) query) →
   r = bing_request self query ∨
   ∃ url, r = Request url PyNone PyNone PyNone (PyInt 10)) ∧
  (Post r ∈ events (research_and_summarize (bound self w) query) →
   ∃ text, r = gemini_request self text).
Proof.
  destruct (research_requests self w query) as (reqs & Hperm & Hreqs).
  assert (Hin : ∀ ev, is_request ev = true →
            ev ∈ events (research_and_summarize (bound self w) query) →
            ev = Get (bing_request self query) ∨ ev ∈ reqs).
  { intros ev Hev Hin. apply elem_of_cons. rewrite <- Hperm.
    by apply list_elem_of_filter. }
  rewrite Forall_forall in Hreqs. split; intros H.
  - destruct (Hin (Get r) eq_refl H) as [[= ->]|Hr]; [by left|].
    destruct (Hreqs _ Hr) as [[url [= ->]]|[text [=]]]. right. by exists url.
  - destruct (Hin (Post r) eq_refl H) as [[=]|Hr].
    destruct (Hreqs _ Hr) as [[url [=]]|[text [= ->]]]. by exists text.
Qed.

Lemma keys_stay_with_their_service_witness :
  Get (page_request (PyStr "http://a"))
    ∈ events (research_and_summarize (bound (init hello_world) hello_world)
                "test") ∧
  req_headers (page_request (PyStr "http://a")) = PyNone.
Proof.
  assert (Hin : Get (page_request (PyStr "http://a"))
                  ∈ events (research_and_summarize
                              (bound (init hello_world) hello_world) "test")).
  { apply list_elem_of_lookup. exists 1%nat. vm_compute. reflexivity. }
  destruct (keys_stay_with_their_service (init hello_world) hello_world "test"
              (page_request (PyStr "http://a"))) as [H _].
  destruct (H Hin) as [E|[url E]].
  - discriminate E.
  - split; [exact Hin|reflexivity].
Defined.

(** ** The form endpoint *)

Lemma index_post w render request query :
  method request = "POST" → form request !! "query" = Some query →
  index w render request
  = ((run_query w query).1,
     match (run_query w query).2 with
     | Ok summary =>
         match render "index.html" summary with
         | Some page => Rendered page
         | None => TemplateFailure
         end
     | Raise e => Unhandled e
     end).
Proof.
  intros Hm Hq. unfold index. rewrite Hm, Hq. cbn [String.eqb].
  change (("POST" =? "POST")%string) with true. cbn iota.
  destruct (run_query w query) as [trace [summary|e]]; done.
Qed.

(** X13. Failures by status do not show: when the search and the summarizer
    both answer with a status other than success, the page rendered for a
    submitted query is the page of the empty form. *)
Theorem index_status_failures_invisible w render request query :
  method request = "POST" →
  form request !! "query" = Some query →
  search_failure (search_session w (bing_request (init w) query))
    = Some NonSuccessStatus →
  summary_failure (requests_post w (gemini_request (init w) ""))
    = Some NonSuccessStatus →
  (index w render request).2 = (index w render (FormRequest "GET" ∅)).2.
Proof.
  intros Hm Hq (resp & Hr & Hs)%search_failure_status
    (resp' & Hr' & Hs')%summary_failure_status.
  rewrite (index_post _ _ _ _ Hm Hq). unfold run_query. cbn [fst snd].
  rewrite value_research_and_summarize.
  cbn [bound call_search_bing call_parallel_webpage_scraping
       call_summarize_with_gemini].
  rewrite value_search_bing, Hr, Hs. cbn [mbind result_mbind].
  rewrite (value_parallel_webpage_scraping _ [] []) by constructor.
  cbn [mbind result_mbind imap]. rewrite filter_nil. cbn [Text.join].
  by rewrite value_summarize_with_gemini, Hr', Hs'.
Qed.

Lemma index_status_failures_invisible_witness :
  (index unavailable_world plain_template
     (FormRequest "POST" {[ "query" := "test" ]})).2
  = Rendered "<p></p>".
Proof.
  rewrite (index_status_failures_invisible unavailable_world plain_template
             (FormRequest "POST" {[ "query" := "test" ]}) "test");
    reflexivity.
Defined.

(** X14. When the endpoint does not render. A request goes out only for a
    POST that carries a [query]. A POST without the field ends in
    [BadRequestKeyError] before anything goes out. An exception of the
    pipeline is not caught: the outcome of the view is that exception, and
    when it is the search that fails in transport the search request is the
    only one that was issued. *)
Theorem index_failures w render request :
  ((index w render request).1 ≠ [] →
   method request = "POST" ∧
   ∃ query, form request !! "query" = Some query ∧
            (index w render request).1 = (run_query w query).1) ∧
  (method request = "POST" → form request !! "query" = None →
   index w render request = ([], BadRequestKeyError "query")) ∧
  (∀ query e,
     method request = "POST" → form request !! "query" = Some query →
     value (research_and_summarize (bound (init w) w) query) = Raise e →
     (index w render request).2 = Unhandled e) ∧
  (∀ query e,
     method request = "POST" → form request !! "query" = Some query →
     search_session w (bing_request (init w) query) = Raise e →
     (index w render request).2 = Unhandled e ∧
     requests (index w render request).1
     = [Get (bing_request (init w) query)]).
Proof.
  split; [|split; [|split]].
  - intros Htrace. destruct (String.eqb_spec (method request) "POST") as [Hm|Hm].
    + split; [done|]. destruct (form request !! "query") as [query|] eqn:Hq.
      * exists query. split; [done|]. by rewrite (index_post _ _ _ _ Hm Hq).
      * exfalso. apply Htrace. unfold index. by rewrite Hm, Hq.
    + exfalso. apply Htrace. unfold index.
      by destruct (String.eqb_spec (method request) "POST").
  - intros Hm Hq. unfold index. by rewrite Hm, Hq.
  - intros query e Hm Hq He. rewrite (index_post _ _ _ _ Hm Hq).
    unfold run_query. cbn [fst snd]. by rewrite He.
  - intros query e Hm Hq He. rewrite (index_post _ _ _ _ Hm Hq).
    unfold run_query. cbn [fst snd].
    assert (Hv : value (search_bing (init w) w query) = Raise e)
      by (by rewrite value_search_bing, He).
    rewrite value_research_and_summarize, events_research_and_summarize.
    cbn [bound call_search_bing]. rewrite Hv. cbn [mbind result_mbind].
    by rewrite app_nil_r, requests_search_bing.
Qed.

Lemma index_failures_witness :
  index offline plain_template (FormRequest "POST" ∅)
    = ([], BadRequestKeyError "query") ∧
  (index offline plain_template (FormRequest "POST" {[ "query" := "test" ]})).2
    = Unhandled (Exn ClientError "Cannot connect to host").
Proof.
  destruct (index_failures offline plain_template (FormRequest "POST" ∅))
    as (_ & Hmissing & _).
  destruct (index_failures offline plain_template
              (FormRequest "POST" {[ "query" := "test" ]}))
    as (_ & _ & _ & Hsearch).
  split.
  - apply Hmissing; reflexivity.
  - apply (Hsearch "test" (Exn ClientError "Cannot connect to host"));
      reflexivity.
Defined.

(** X15. For a POST with a [query] on which the pipeline returns a summary,
    the page is the template [index.html] rendered with that summary, which is
    what the Summarizer returned for the corpus of the pages; the requests
    are one search, one page request per result and one request to the
    summarizer. *)
Theorem index_renders_summary w render request query summary :
  method request = "POST" →
  form request !! "query" = Some query →
  value (research_and_summarize (bound (init w) w) query) = Ok summary →
  (index w render request).2
  = match render "index.html" summary with
    | Some page => Rendered page
    | None => TemplateFailure
    end ∧
  ∃ urls,
    requests (index w render request).1
    ≡ₚ Get (bing_request (init w) query)
       :: ((λ url, Get (page_request url)) <$> urls)
       ++ [Post (gemini_request (init w) (corpus w urls))] ∧
    value (summarize_with_gemini (init w) w (corpus w urls)) = Ok summary.
Proof.
  intros Hm Hq Hv. rewrite (index_post _ _ _ _ Hm Hq).
  unfold run_query. cbn [fst snd]. rewrite Hv. split; [done|].
  rewrite value_research_and_summarize in Hv.
  rewrite events_research_and_summarize.
  cbn [bound call_search_bing call_parallel_webpage_scraping
       call_summarize_with_gemini] in Hv |- *.
  destruct (value (search_bing (init w) w query)) as [rs|e] eqn:Hrs; [|done].
  destruct (search_bing_results_have_url _ _ _ _ Hrs) as [urls Hurls].
  exists urls. cbn [mbind result_mbind] in Hv.
  rewrite (value_parallel_webpage_scraping _ _ _ Hurls) in Hv |- *.
  cbn [mbind result_mbind] in Hv. split; [|exact Hv].
  rewrite !requests_app, requests_search_bing,
    requests_summarize_with_gemini.
  by rewrite (requests_parallel_webpage_scraping _ _ _ Hurls).
Qed.

Lemma index_renders_summary_witness :
  (index (answering hello_world (Ok (summary_response (PyStr "Short."))))
     plain_template (FormRequest "POST" {[ "query" := "test" ]})).2
  = Rendered "<p>Short.</p>".
Proof.
  destruct (index_renders_summary
              (answering hello_world (Ok (summary_response (PyStr "Short."))))
              plain_template (FormRequest "POST" {[ "query" := "test" ]})
              "test" (PyStr "Short.")) as [H _].
  - reflexivity.
  - reflexivity.
  - vm_compute. reflexivity.
  - rewrite H. reflexivity.
Defined.

(** ** Further edge behaviour *)

(** X16. The defaults of the Search Client cover missing keys only. A
    ["webPages"] or ["value"] key that is present with the value [null] is
    not defaulted: the search raises, [AttributeError] for a null
    ["webPages"] and [TypeError] for a null ["value"]. *)
Theorem search_bing_null_keys self w query resp (body : gmap string pyval) :
  search_session w (bing_request self query) = Ok resp →
  status resp = 200 →
  json resp = Ok (PyDict body) →
  (body !! "webPages" = Some PyNone →
   value (search_bing self w query)
   = Raise (Exn AttributeError "'NoneType' object has no attribute 'get'")) ∧
  (∀ webPages : gmap string pyval,
     body !! "webPages" = Some (PyDict webPages) →
     webPages !! "value" = Some PyNone →
     value (search_bing self w query)
     = Raise (Exn TypeError "'NoneType' object is not iterable")).
Proof.
  intros Hs H200 Hj.
  rewrite value_search_bing, Hs, H200. cbn [Z.eqb Pos.eqb].
  unfold listed. rewrite Hj. cbn [mbind result_mbind get]. split.
  - by intros ->.
  - intros webPages -> Hv. cbn [from_option id mbind result_mbind get].
    by rewrite Hv.
Qed.

Lemma search_bing_null_keys_witness :
  value (search_bing (init offline)
           (searching offline
              (Ok (Response 200 (Ok (PyDict {[ "webPages" := PyNone ]}))
                     (Ok ""))))
           "test")
  = Raise (Exn AttributeError "'NoneType' object has no attribute 'get'").
Proof.
  destruct (search_bing_null_keys (init offline)
              (searching offline
                 (Ok (Response 200 (Ok (PyDict {[ "webPages" := PyNone ]}))
                        (Ok ""))))
              "test"
              (Response 200 (Ok (PyDict {[ "webPages" := PyNone ]})) (Ok ""))
              {[ "webPages" := PyNone ]}) as [H _].
  - reflexivity.
  - reflexivity.
  - reflexivity.
  - apply H. reflexivity.
Defined.

(** X17. The Aggregator requests every search result once, in whatever order
    the fetches are resumed: results with the same URL are not merged, no
    result is skipped and no request is repeated. *)
Theorem parallel_webpage_scraping_one_request_each w search_results urls :
  Forall2 (λ result url, subscript result (KStr "url") = Ok url)
    search_results urls →
  requests (events (parallel_webpage_scraping w search_results))
  ≡ₚ (λ url, Get (Request url PyNone PyNone PyNone (PyInt 10))) <$> urls ∧
  length (requests (events (parallel_webpage_scraping w search_results)))
  = length search_results ∧
  ∀ order,
    requests (events (parallel_webpage_scraping (scheduling w order)
                        search_results))
    ≡ₚ requests (events (parallel_webpage_scraping w search_results)).
Proof.
  intros H.
  pose proof (requests_parallel_webpage_scraping w _ _ H) as Hw.
  split; [exact Hw|]. split.
  - rewrite Hw, length_fmap. symmetry. by eapply Forall2_length.
  - intros order. rewrite Hw.
    apply (requests_parallel_webpage_scraping (scheduling w order) _ _ H).
Qed.

Lemma parallel_webpage_scraping_one_request_each_witness :
  length (requests (events (parallel_webpage_scraping three_pages_world
                              [SearchResult (PyStr "http://a") (PyStr "A");
                               SearchResult (PyStr "http://a") (PyStr "A");
                               SearchResult (PyStr "http://c") (PyStr "C")])))
  = 3%nat.
Proof.
  destruct (parallel_webpage_scraping_one_request_each three_pages_world
              [SearchResult (PyStr "http://a") (PyStr "A");
               SearchResult (PyStr "http://a") (PyStr "A");
               SearchResult (PyStr "http://c") (PyStr "C")]
              [PyStr "http://a"; PyStr "http://a"; PyStr "http://c"])
    as (_ & H & _).
  - repeat constructor.
  - exact H.
Defined.
